(** * Cross-validation pipeline for CT segmentation: a shallow embedding

    The development follows the two source files of the repository:

    - [cross_validation.py]: the k-fold orchestrator with its epoch loop,
      checkpoint rule and early stopping;
    - [src/data/loader.py]: the dataset adapter [CustomDataLoader] and the
      collate functions.

    Python floats are IEEE binary64 values and are modelled by Rocq's
    primitive floats, so that [<=], [!=], [inf] and [nan] behave as they do
    in the interpreter.  Python integers are modelled by [Z].  Calls that may
    raise are modelled by a result type carrying the exception raised. *)

From Stdlib Require Import ZArith List Bool Lia String Ascii Floats.
From Stdlib Require Import Permutation.
Import ListNotations.

Local Open Scope Z_scope.

(* Decimal literals such as 0.4 denote the nearest binary64 value, as they do
   in Python. *)
#[local] Set Warnings "-inexact-float,-register-all".

(** ** Exceptions and fallible computations *)

Inductive PyExc : Type :=
| AttributeError
| TypeError
| ValueError
| IndexError
| RuntimeError.

Inductive result (A : Type) : Type :=
| Ok (a : A)
| Raise (e : PyExc).

Arguments Ok {A} a.
Arguments Raise {A} e.

Definition bind {A B : Type} (r : result A) (k : A -> result B) : result B :=
  match r with
  | Ok a => k a
  | Raise e => Raise e
  end.

Notation "x <- r ;; k" := (bind r (fun x => k))
  (at level 61, r at next level, right associativity).

(** ** The epoch loop of one fold (cross_validation.py, lines 136-147, 149,
       244-282)

    The training pass and the validation pass of an epoch (lines 150-217) are
    numeric work of external libraries; the control flow only reads their two
    aggregates [total_valid_loss[-1]] and [total_valid_3d_score[-1]].  The
    loop is modelled for epochs whose two passes complete and deliver these
    aggregates. *)

Record EpochMetrics : Type := {
  total_valid_loss_last : float;
  total_valid_3d_score_last : float
}.

(** The dictionary built at lines 253-259; the two state blobs are opaque to
    the control flow and are left out. *)
Record Checkpoint : Type := {
  ck_fold : Z;
  ck_epoch : Z;
  ck_valid_loss_min : float
}.

(** The two file names of lines 265-266, kept structured. *)
Inductive CkpPath : Type :=
| EpochFile (fold epoch : Z)     (* "fold{}_epoch{}.pt" *)
| BestModelFile (fold : Z).      (* "bestmodel_fold{}.pt" *)

(** One call of [save_ckp(state, is_best, checkpoint_path, best_model_path)]. *)
Record SaveCall : Type := {
  sc_state : Checkpoint;
  sc_is_best : bool;
  sc_checkpoint_path : CkpPath;
  sc_best_model_path : CkpPath
}.

(** The variables of a fold that the epoch loop reads and writes, and the
    log of the [save_ckp] calls made so far. *)
Record FoldState : Type := {
  valid_loss_min : float;
  valid_iou_min : float;
  epochs_no_improve : Z;
  saved : list SaveCall
}.

(** Line 244: [total_valid_loss[-1] <= valid_loss_min]. *)
Definition improved (m : EpochMetrics) (st : FoldState) : bool :=
  PrimFloat.leb (total_valid_loss_last m) (valid_loss_min st).

(** Lines 244-276. *)
Definition epoch_update (fold epoch : Z) (m : EpochMetrics) (st : FoldState)
  : FoldState :=
  if improved m st then
    let checkpoint :=
      {| ck_fold := fold + 1;
         ck_epoch := epoch + 1;
         ck_valid_loss_min := total_valid_loss_last m |} in
    {| valid_loss_min := total_valid_loss_last m;
       valid_iou_min := total_valid_3d_score_last m;
       epochs_no_improve := 0;
       saved := saved st ++
                [ {| sc_state := checkpoint;
                     sc_is_best := true;
                     sc_checkpoint_path := EpochFile (fold + 1) (epoch + 1);
                     sc_best_model_path := BestModelFile (fold + 1) |} ] |}
  else
    {| valid_loss_min := valid_loss_min st;
       valid_iou_min := valid_iou_min st;
       epochs_no_improve := epochs_no_improve st + 1;
       saved := saved st |}.

(** What the loop did in one epoch: the epoch index and the outcome of the
    test of line 244. *)
Record EpochTrace : Type := {
  tr_epoch : Z;
  tr_improved : bool
}.

(** The [for epoch in ...] loop of lines 149-280 over the epochs still to
    run.  [outcome epoch] stands for the metrics that the training and
    validation passes of that epoch produce.  The [break] of line 280 ends the
    loop after the epoch in which the counter exceeds the maximum. *)
Fixpoint epoch_loop (max_epochs_no_improve fold : Z)
    (outcome : Z -> EpochMetrics) (epochs : list Z) (st : FoldState)
  : FoldState * list EpochTrace :=
  match epochs with
  | [] => (st, [])
  | epoch :: rest =>
      let m := outcome epoch in
      let st' := epoch_update fold epoch m st in
      let t := {| tr_epoch := epoch; tr_improved := improved m st |} in
      if epochs_no_improve st' >? max_epochs_no_improve then (st', [t])
      else
        let '(st'', ts) :=
          epoch_loop max_epochs_no_improve fold outcome rest st' in
        (st'', t :: ts)
  end.

(** [range(start, stop)]. *)
Definition py_range (start stop : Z) : list Z :=
  map (fun i => start + Z.of_nat i) (seq 0 (Z.to_nat (stop - start))).

(** The settings the loop reads. *)
Record Settings : Type := {
  num_epochs : Z;
  max_epochs_no_improve : Z
}.

(** What [load_ckp] hands back at line 147, as far as the loop uses it. *)
Record LoadedCkp : Type := {
  epoch_start : Z;
  loaded_valid_loss_min : float
}.

(** Lines 136-147: the state a fold starts from.  Line 147 overwrites the
    [np.Inf] of line 136 with the value read from the checkpoint. *)
Definition fold_init (ckp : LoadedCkp) : FoldState :=
  {| valid_loss_min := loaded_valid_loss_min ckp;
     valid_iou_min := infinity;
     epochs_no_improve := 0;
     saved := [] |}.

(** One fold, lines 136-282: the final state and the epochs that ran. *)
Definition run_fold (cfg : Settings) (fold : Z) (ckp : LoadedCkp)
    (outcome : Z -> EpochMetrics) : FoldState * list EpochTrace :=
  epoch_loop (max_epochs_no_improve cfg) fold outcome
    (py_range (epoch_start ckp) (epoch_start ckp + num_epochs cfg))
    (fold_init ckp).

(** Line 282 over all folds: the list [min_ious] after the fold loop, one
    entry per fold in fold order.  Each fold comes with what [load_ckp]
    returned for it and with the metrics its epochs produce. *)
Definition min_ious (cfg : Settings)
    (folds : list (LoadedCkp * (Z -> EpochMetrics))) : list float :=
  map (fun '(fold, (ckp, outcome)) =>
         valid_iou_min (fst (run_fold cfg (Z.of_nat fold) ckp outcome)))
      (combine (seq 0 (List.length folds)) folds).

(** The epochs of a run and the flags of line 244, read off a trace. *)
Definition epochs_run (ts : list EpochTrace) : list Z := map tr_epoch ts.
Definition improvement_flags (ts : list EpochTrace) : list bool :=
  map tr_improved ts.

(** The state after the first [n] epochs of a list when nothing stops the
    loop: the reference against which the [break] is located. *)
Definition state_after (fold : Z) (outcome : Z -> EpochMetrics)
    (epochs : list Z) (st : FoldState) (n : nat) : FoldState :=
  fold_left (fun s epoch => epoch_update fold epoch (outcome epoch) s)
    (firstn n epochs) st.

(** Metrics of a synthetic run: the validation losses of a list, epoch by
    epoch from [start]; a 3D score accompanies each loss. *)
Definition outcome_of_list (start : Z) (ms : list (float * float))
  : Z -> EpochMetrics :=
  fun epoch =>
    let '(l, s) := nth (Z.to_nat (epoch - start)) ms (nan, nan) in
    {| total_valid_loss_last := l; total_valid_3d_score_last := s |}.

(** The 3D scores of the epochs of a trace, in epoch order. *)
Definition scores_of_run (outcome : Z -> EpochMetrics)
    (ts : list EpochTrace) : list float :=
  map (fun t => total_valid_3d_score_last (outcome (tr_epoch t))) ts.

(** The reading of "the best 3D score of a fold": the largest of the 3D
    scores of the epochs that ran. *)
Definition max_score (scores : list float) : float :=
  fold_left (fun best s => if PrimFloat.ltb best s then s else best)
            scores neg_infinity.

(** The last epoch of a trace at which the test of line 244 succeeded. *)
Fixpoint last_improved (ts : list EpochTrace) : option Z :=
  match ts with
  | [] => None
  | t :: rest =>
      match last_improved rest with
      | Some e => Some e
      | None => if tr_improved t then Some (tr_epoch t) else None
      end
  end.

(** The value line 282 appends for a fold, told from the trace of the fold:
    the 3D score of the last epoch whose loss passed the test of line 244,
    and the initial [np.Inf] when no epoch did. *)
Definition score_at_best_loss (outcome : Z -> EpochMetrics)
    (ts : list EpochTrace) : float :=
  match last_improved ts with
  | Some e => total_valid_3d_score_last (outcome e)
  | None => infinity
  end.

(** The [save_ckp] call of lines 262-267 for an epoch with validation loss
    [loss]. *)
Definition save_call (fold epoch : Z) (loss : float) : SaveCall :=
  {| sc_state := {| ck_fold := fold + 1;
                    ck_epoch := epoch + 1;
                    ck_valid_loss_min := loss |};
     sc_is_best := true;
     sc_checkpoint_path := EpochFile (fold + 1) (epoch + 1);
     sc_best_model_path := BestModelFile (fold + 1) |}.

(** The epochs of a trace at which the test of line 244 succeeded, in epoch
    order. *)
Definition improved_epochs (ts : list EpochTrace) : list Z :=
  map tr_epoch (filter tr_improved ts).

(** The number of epochs at the head of a trace that did not improve; on a
    reversed trace, the number of epochs since the last improvement. *)
Fixpoint leading_misses (ts : list EpochTrace) : nat :=
  match ts with
  | [] => 0
  | t :: rest => if tr_improved t then 0 else S (leading_misses rest)
  end.

(** ** Python values and truth testing

    The dataset adapter stores whatever its caller passes for [is_train] and
    [skip_blank]; the test of line 50 of loader.py is Python's truth test on
    those objects. *)

Inductive PyVal : Type :=
| PyNone
| PyBool (b : bool)
| PyInt (z : Z)
| PyFloat (f : float)
| PyStr (s : string)
| PyTuple (items : list PyVal)
| PyList (items : list PyVal).

(** [bool(v)]: [None], [False], zero and empty containers are false. *)
Definition truthy (v : PyVal) : bool :=
  match v with
  | PyNone => false
  | PyBool b => b
  | PyInt z => negb (z =? 0)
  | PyFloat f => negb (PrimFloat.eqb f 0%float)
  | PyStr s => negb (String.eqb s EmptyString)
  | PyTuple items => negb (Nat.eqb (List.length items) 0)
  | PyList items => negb (Nat.eqb (List.length items) 0)
  end.

(** [a and b]: the first operand when it is false, else the second. *)
Definition py_and (a b : PyVal) : PyVal :=
  if truthy a then b else a.

(** [l[idx]] on a Python list: negative indices count from the end. *)
Definition py_list_get {A : Type} (l : list A) (idx : Z) : result A :=
  let n := Z.of_nat (List.length l) in
  let i := if idx <? 0 then idx + n else idx in
  if (i <? 0) || (n <=? i) then Raise IndexError
  else
    match nth_error l (Z.to_nat i) with
    | Some x => Ok x
    | None => Raise IndexError
    end.

(** ** Volumes as numpy arrays (loader.py, lines 44-53)

    A volume is an array of shape (height, width, depth); [data] is indexed
    [h][w][d] like the numpy array. *)

Record ndarray : Type := {
  shape : nat * nat * nat;
  data : list (list (list float))
}.

Definition depth (a : ndarray) : nat := snd (shape a).

(** Rectangular data of the declared shape. *)
Definition well_shaped (a : ndarray) : Prop :=
  let '(h, w, d) := shape a in
  List.length (data a) = h /\
  Forall (fun row =>
            List.length row = w /\
            Forall (fun cell => List.length cell = d) row) (data a).

(** [label != 0], elementwise. *)
Definition ne_zero (x : float) : bool := negb (PrimFloat.eqb x 0%float).

(** [(label != 0).any((0, 1))]: one flag per depth index. *)
Definition any_axes_0_1 (label : ndarray) : list bool :=
  map (fun d =>
         existsb (existsb (fun cell => ne_zero (nth d cell 0%float)))
                 (data label))
      (seq 0 (depth label)).

(** [mask.nonzero()]: the positions of a boolean index that are set, in
    increasing order. *)
Definition nonzero (mask : list bool) : list nat :=
  filter (fun d => nth d mask false) (seq 0 (List.length mask)).

(** [a[:, :, mask]] for a boolean index [mask]: numpy refuses a mask whose
    length is not the depth and otherwise takes the depth indices
    [mask.nonzero()]. *)
Definition index_axis2 (a : ndarray) (mask : list bool) : result ndarray :=
  if Nat.eqb (List.length mask) (depth a) then
    let idxs := nonzero mask in
    Ok {| shape := (fst (shape a), List.length idxs);
          data := map (map (fun cell =>
                              map (fun d => nth d cell 0%float) idxs))
                      (data a) |}
  else Raise IndexError.

(** The depth slice [a[:, :, d]] and the list of all of them in depth
    order. *)
Definition slice_at (a : ndarray) (d : nat) : list (list float) :=
  map (map (fun cell => nth d cell 0%float)) (data a).

Definition depth_slices (a : ndarray) : list (list (list float)) :=
  map (slice_at a) (seq 0 (depth a)).

(** A slice that is entirely zero. *)
Definition all_zero (s : list (list float)) : bool :=
  forallb (forallb (fun x => PrimFloat.eqb x 0%float)) s.

(** The depth indices of a label volume whose slice is not entirely zero,
    in increasing order. *)
Definition labelled_depths (label : ndarray) : list nat :=
  filter (fun d => negb (all_zero (slice_at label d))) (seq 0 (depth label)).

(** ** External numeric libraries

    Tensors, the three random generators that loader.py seeds or draws from,
    the volume reader and the image operations of torchvision are external to
    the repository.  They are an interface here; every statement below holds
    for each implementation of it. *)

Record AffineParams : Type := {
  angle : float;
  translations : Z * Z;
  scale : float;
  shear : float * float
}.

Class Backend : Type := {
  Tensor : Type;
  NpRng : Type;      (* state of numpy's global generator *)
  PyRng : Type;      (* state of the [random] module *)
  TorchRng : Type;   (* state of torch's default generator *)
  (* [np.float32(nib.load(os.path.join(dir, name)).get_fdata())] *)
  nib_load_float32 : string -> string -> result ndarray;
  (* [np.random.randint(high)] *)
  np_random_randint : NpRng -> Z -> Z * NpRng;
  (* [random.seed(seed)] and [torch.manual_seed(seed)] *)
  random_seed : Z -> PyRng;
  torch_manual_seed : Z -> TorchRng;
  (* one uniform draw of torchvision on [low, high] *)
  uniform : PyRng * TorchRng -> float -> float -> float * (PyRng * TorchRng);
  (* [ToTensor] on an array *)
  to_tensor : ndarray -> Tensor;
  (* [F.affine(img, angle, translations, scale, shear, fill=fill)] *)
  affine : Tensor -> AffineParams -> float -> Tensor
}.

(** The generators and the log of the [F.affine] calls made so far, each with
    the parameters and the fill value it was given. *)
Record World `{Backend} : Type := {
  np_rng : NpRng;
  py_rng : PyRng;
  torch_rng : TorchRng;
  affine_calls : list (AffineParams * float)
}.

(** What a transform chain passes along: an array before [ToTensor], a
    tensor after it. *)
Inductive Data `{Backend} : Type :=
| Arr (a : ndarray)
| Ten (t : Tensor).

(** The transforms that cross_validation.py composes (lines 74-88).
    [RandomAffine] is given its degrees, its scale range and its fill value;
    translation and shear keep their default [None]. *)
Inductive Transform `{Backend} : Type :=
| ToTensor
| RandomAffine (degrees : float) (scale_ranges : option (float * float))
    (fill : float)
| Lambda (f : Data -> result Data).

(** [RandomAffine.get_params]: the angle is drawn first, then the scale; no
    draw is made for translation and shear when they are [None]. *)
Definition get_params `{Backend} (degrees : float * float)
    (scale_ranges : option (float * float)) (g : PyRng * TorchRng)
  : AffineParams * (PyRng * TorchRng) :=
  let '(a, g1) := uniform g (fst degrees) (snd degrees) in
  let '(s, g2) :=
    match scale_ranges with
    | Some (lo, hi) => uniform g1 lo hi
    | None => (1%float, g1)
    end in
  ({| angle := a; translations := (0, 0); scale := s;
      shear := (0%float, 0%float) |}, g2).

(** One transform applied to a value. *)
Definition apply_transform `{Backend} (t : Transform) (x : Data) (w : World)
  : result (Data * World) :=
  match t with
  | ToTensor =>
      match x with
      | Arr a => Ok (Ten (to_tensor a), w)
      | Ten _ => Raise TypeError
      end
  | RandomAffine degrees scale_ranges fill =>
      match x with
      | Ten img =>
          let '(p, (py, th)) :=
            get_params (PrimFloat.opp degrees, degrees) scale_ranges
                       (py_rng w, torch_rng w) in
          Ok (Ten (affine img p fill),
              {| np_rng := np_rng w; py_rng := py; torch_rng := th;
                 affine_calls := affine_calls w ++ [(p, fill)] |})
      | Arr _ => Raise TypeError
      end
  | Lambda f => y <- f x ;; Ok (y, w)
  end.

(** [tfms.Compose(ts)(x)]: the transforms in list order. *)
Fixpoint compose `{Backend} (ts : list Transform) (x : Data) (w : World)
  : result (Data * World) :=
  match ts with
  | [] => Ok (x, w)
  | t :: rest =>
      r <- apply_transform t x w ;; compose rest (fst r) (snd r)
  end.

(** [if self.transforms is not None: img = self.transforms(img)]. *)
Definition apply_optional `{Backend} (ts : option (list Transform))
    (x : Data) (w : World) : result (Data * World) :=
  match ts with
  | Some chain => compose chain x w
  | None => Ok (x, w)
  end.

(** [random.seed(seed); torch.manual_seed(seed)]. *)
Definition reseed `{Backend} (seed : Z) (w : World) : World :=
  {| np_rng := np_rng w;
     py_rng := random_seed seed;
     torch_rng := torch_manual_seed seed;
     affine_calls := affine_calls w |}.

(** The draw that [RandomAffine(5, scale=[1, 1.25], ...)] makes right after
    the generators have been seeded with [seed]: the parameters and the
    generator states left behind. *)
Definition seeded_draw `{Backend} (seed : Z)
  : AffineParams * (PyRng * TorchRng) :=
  get_params (PrimFloat.opp 5, 5%float) (Some (1%float, 1.25%float))
             (random_seed seed, torch_manual_seed seed).

(** The random steps of a chain, each with the ranges it draws from. *)
Fixpoint affine_ranges `{Backend} (ts : list Transform)
  : list (float * option (float * float)) :=
  match ts with
  | [] => []
  | RandomAffine degrees scale_ranges _ :: rest =>
      (degrees, scale_ranges) :: affine_ranges rest
  | _ :: rest => affine_ranges rest
  end.

(** The draws that the random steps of a chain make one after the other,
    starting from the generator states [g], each with the fill value of its
    step; and the generator states left behind. *)
Fixpoint chain_draws `{Backend} (ts : list Transform)
    (g : PyRng * TorchRng)
  : list (AffineParams * float) * (PyRng * TorchRng) :=
  match ts with
  | [] => ([], g)
  | RandomAffine degrees scale_ranges fill :: rest =>
      let '(p, g1) :=
        get_params (PrimFloat.opp degrees, degrees) scale_ranges g in
      let '(ps, g2) := chain_draws rest g1 in
      ((p, fill) :: ps, g2)
  | _ :: rest => chain_draws rest g
  end.

(** The draws of an optional chain. *)
Definition optional_draws `{Backend} (ts : option (list Transform))
    (g : PyRng * TorchRng)
  : list (AffineParams * float) * (PyRng * TorchRng) :=
  match ts with
  | Some chain => chain_draws chain g
  | None => ([], g)
  end.

(** ** The dataset adapter [CustomDataLoader] (loader.py, lines 11-66) *)

Record CustomDataLoader `{Backend} : Type := {
  root_dir : string;
  seg_dir : string;
  transforms : option (list Transform);
  target_transforms : option (list Transform);
  is_train : PyVal;
  files : list string;
  lables : list string;
  skip_blank : PyVal
}.

(** [__init__], lines 17-36.  Line 32 stores a one-element tuple. *)
Definition init `{Backend} (root_dir seg_dir : string)
    (files labels : list string) (is_train : PyVal)
    (transforms target_transforms : option (list Transform))
    (skip_blank : PyVal) : CustomDataLoader :=
  {| root_dir := root_dir;
     seg_dir := seg_dir;
     transforms := transforms;
     target_transforms := target_transforms;
     is_train := PyTuple [is_train];
     files := files;
     lables := labels;
     skip_blank := skip_blank |}.

(** [__len__], lines 38-39. *)
Definition len `{Backend} (self : CustomDataLoader) : Z :=
  Z.of_nat (List.length (files self)).

(** The test of line 50. *)
Definition filters_blanks `{Backend} (self : CustomDataLoader) : bool :=
  truthy (py_and (skip_blank self) (is_train self)).

(** Lines 50-53: the label and the image after the optional removal of the
    blank depth slices. *)
Definition drop_blanks `{Backend} (self : CustomDataLoader)
    (label img : ndarray) : result (ndarray * ndarray) :=
  if filters_blanks self then
    let non_blanks := any_axes_0_1 label in
    label' <- index_axis2 label non_blanks ;;
    img' <- index_axis2 img non_blanks ;;
    Ok (label', img')
  else Ok (label, img).

(** Lines 55-66: the seeded transforms of an image and its label. *)
Definition augment `{Backend} (self : CustomDataLoader)
    (img label : ndarray) (w : World) : result ((Data * Data) * World) :=
  let '(seed, np') := np_random_randint (np_rng w) 2147483647 in
  let w0 := {| np_rng := np'; py_rng := py_rng w; torch_rng := torch_rng w;
               affine_calls := affine_calls w |} in
  r1 <- apply_optional (transforms self) (Arr img) (reseed seed w0) ;;
  r2 <- apply_optional (target_transforms self) (Arr label)
          (reseed seed (snd r1)) ;;
  Ok ((fst r1, fst r2), snd r2).

(** [__getitem__], lines 41-66. *)
Definition getitem `{Backend} (self : CustomDataLoader) (idx : Z) (w : World)
  : result ((Data * Data) * World) :=
  img_name <- py_list_get (files self) idx ;;
  label_name <- py_list_get (lables self) idx ;;
  img <- nib_load_float32 (root_dir self) img_name ;;
  label <- nib_load_float32 (seg_dir self) label_name ;;
  li <- drop_blanks self label img ;;
  augment self (snd li) (fst li) w.

(** The two chains that cross_validation.py builds at lines 74-88 around the
    functions [hounsfield_clip] and [normalize] of the preprocessing
    module. *)
Definition train_transforms `{Backend}
    (hounsfield_clip normalize : Data -> result Data) : list Transform :=
  [ ToTensor;
    RandomAffine 5%float (Some (1%float, 1.25%float)) (-1024)%float;
    Lambda hounsfield_clip;
    Lambda normalize ].

Definition train_target_transforms `{Backend} : list Transform :=
  [ ToTensor;
    RandomAffine 5%float (Some (1%float, 1.25%float)) 0%float ].

(** The two chains of the validation adapter, lines 96-107. *)
Definition valid_transforms `{Backend}
    (hounsfield_clip normalize : Data -> result Data) : list Transform :=
  [ ToTensor; Lambda hounsfield_clip; Lambda normalize ].

Definition valid_target_transforms `{Backend} : list Transform :=
  [ ToTensor ].

(** ** The test adapter [CustomTestLoader] (loader.py, lines 69-97) *)

Record CustomTestLoader `{Backend} : Type := {
  test_root_dir : string;
  test_transforms : option (list Transform);
  test_files : list string
}.

(** [__init__], lines 75-84. *)
Definition test_init `{Backend} (root_dir : string) (files : list string)
    (transforms : option (list Transform)) : CustomTestLoader :=
  {| test_root_dir := root_dir;
     test_transforms := transforms;
     test_files := files |}.

(** [__len__], lines 86-87. *)
Definition test_len `{Backend} (self : CustomTestLoader) : Z :=
  Z.of_nat (List.length (test_files self)).

(** [__getitem__], lines 89-97: no seed is drawn and no generator is
    seeded. *)
Definition test_getitem `{Backend} (self : CustomTestLoader) (idx : Z)
    (w : World) : result (Data * World) :=
  img_name <- py_list_get (test_files self) idx ;;
  img <- nib_load_float32 (test_root_dir self) img_name ;;
  apply_optional (test_transforms self) (Arr img) w.

(** ** Attribute lookup on a [CustomDataLoader] object

    An attribute of an instance is looked up among the attributes that
    [__init__] sets, then in the class body, then in the base class
    [torch.utils.data.Dataset].  What every Python object inherits from
    [object] are names with two leading underscores; they are left out. *)

Inductive Attr : Type :=
| Field (name : string)
| Method (owner name : string).

(** Lines 28-35 of loader.py. *)
Definition instance_fields : list string :=
  [ "root_dir"; "seg_dir"; "transforms"; "target_transforms"; "is_train";
    "files"; "lables"; "skip_blank" ]%string.

(** The [def]s of the class body, lines 17, 38 and 41. *)
Definition class_methods : list string :=
  [ "__init__"; "__len__"; "__getitem__" ]%string.

(** The methods that the base class [Dataset] contributes. *)
Definition dataset_methods : list string :=
  [ "__getitem__"; "__add__" ]%string.

Definition mem_string (x : string) (l : list string) : bool :=
  existsb (String.eqb x) l.

Definition getattr (name : string) : result Attr :=
  if mem_string name instance_fields then Ok (Field name)
  else if mem_string name class_methods then
    Ok (Method "CustomDataLoader" name)
  else if mem_string name dataset_methods then Ok (Method "Dataset" name)
  else Raise AttributeError.

(** [train_dataset.NAME()]: the attribute is looked up, then called; a data
    attribute holding a tuple, a string or a list is not callable. *)
Definition call_method0 (name : string) : result Attr :=
  a <- getattr name ;;
  match a with
  | Method _ _ => Ok a
  | Field _ => Raise TypeError
  end.

(** Line 162 of cross_validation.py, the first statement of the training
    part of every epoch. *)
Definition epoch_reset_counters : result Attr :=
  call_method0 "reset_counters".

(** ** Stacking and collation (loader.py, lines 100-113)

    A tensor is read through the sequence of its entries along dimension 0,
    which is what iterating a tensor yields.  [same_shape] compares the shapes
    of two entries. *)

(** [torch.stack(ts)]: needs at least one tensor and equal shapes. *)
Definition torch_stack {A : Type} (same_shape : A -> A -> bool)
    (ts : list A) : result (list A) :=
  match ts with
  | [] => Raise RuntimeError
  | t :: rest =>
      if forallb (same_shape t) rest then Ok ts else Raise RuntimeError
  end.

(** What [torch.stack] asks of its argument: at least one entry, and every
    entry of the shape of the first. *)
Definition stackable {A : Type} (same_shape : A -> A -> bool) (ts : list A)
  : bool :=
  match ts with
  | [] => false
  | t :: rest => forallb (same_shape t) rest
  end.

(** Slices as matrices, compared by their numbers of rows and columns. *)
Definition same_shape_2d (a b : list (list float)) : bool :=
  Nat.eqb (List.length a) (List.length b) &&
  Nat.eqb (List.length (hd [] a)) (List.length (hd [] b)).

(** [t.unsqueeze(1)]: every entry along dimension 0 gets a new leading
    dimension of size one. *)
Definition unsqueeze_1 {A : Type} (t : list A) : list (list A) :=
  map (fun s => [s]) t.

(** [itertools.chain] over the unpacked list, collected into a list. *)
Definition chain {A : Type} (ts : list (list A)) : list A := List.concat ts.

Definition custom_collate {A : Type} (same_shape : A -> A -> bool)
    (batch : list (list A * list A))
  : result (list (list A) * list (list A)) :=
  let data := map fst batch in
  data <- torch_stack same_shape (chain data) ;;
  let data := unsqueeze_1 data in
  let target := map snd batch in
  target <- torch_stack same_shape (chain target) ;;
  let target := unsqueeze_1 target in
  Ok (data, target).

(** The total number of slices of the volumes of a batch. *)
Definition total_depth {A : Type} (vols : list (list A)) : nat :=
  list_sum (map (@List.length A) vols).

(** [test_collate], lines 116-127. *)
Definition test_collate {A : Type} (same_shape : A -> A -> bool)
    (batch : list (list A)) : result (list (list A)) :=
  let data := batch in
  data <- torch_stack same_shape (chain data) ;;
  Ok (unsqueeze_1 data).

(** [t[perm]] for an index tensor [perm]: the entries of [t] at the listed
    positions, in the listed order; a position beyond the end is refused. *)
Fixpoint index_rows {A : Type} (t : list A) (perm : list nat)
  : result (list A) :=
  match perm with
  | [] => Ok []
  | i :: rest =>
      match nth_error t i with
      | Some x => picked <- index_rows t rest ;; Ok (x :: picked)
      | None => Raise IndexError
      end
  end.

(** [custom_collate_permute], lines 130-146.  [randperm n] stands for the
    tensor that [torch.randperm(n)] returns. *)
Definition custom_collate_permute {A : Type} (same_shape : A -> A -> bool)
    (randperm : nat -> list nat) (batch : list (list A * list A))
  : result (list (list A) * list (list A)) :=
  let data := map fst batch in
  data <- torch_stack same_shape (chain data) ;;
  let data := unsqueeze_1 data in
  let perm := randperm (List.length data) in
  data <- index_rows data perm ;;
  let target := map snd batch in
  target <- torch_stack same_shape (chain target) ;;
  let target := unsqueeze_1 target in
  target <- index_rows target perm ;;
  Ok (data, target).

(** ** Splitting into sections

    [torch.tensor_split(t, n)] and scikit-learn's [KFold] cut a sequence of
    length [len] into [n] consecutive sections in the same way: the first
    [len mod n] sections have [len / n + 1] entries, the others [len / n]. *)

Definition section_sizes (len n : nat) : list nat :=
  map (fun j => (len / n + (if (j <? len mod n)%nat then 1 else 0))%nat)
      (seq 0 n).

Fixpoint split_sizes {A : Type} (sizes : list nat) (l : list A)
  : list (list A) :=
  match sizes with
  | [] => []
  | s :: rest => firstn s l :: split_sizes rest (skipn s l)
  end.

Definition tensor_split {A : Type} (t : list A) (sections : Z)
  : result (list (list A)) :=
  if sections <=? 0 then Raise RuntimeError
  else Ok (split_sizes (section_sizes (List.length t) (Z.to_nat sections)) t).

(** ** Per-slice inference of the validation loop (cross_validation.py,
       lines 189-196)

    [image] is the collated volume, one entry per depth slice; [model] is the
    network applied to a section. *)
Definition predict_volume {A O : Type} (same_shape : O -> O -> bool)
    (model : list A -> O) (image : list A) : result (list O) :=
  image_split <- tensor_split image (Z.of_nat (List.length image)) ;;
  let output_ls :=
    fold_left (fun output_ls split => output_ls ++ [model split])
              image_split [] in
  torch_stack same_shape output_ls.

(** ** The fold split (cross_validation.py, lines 43 and 57)

    [KFold(n_splits, shuffle=True, random_state=seed).split(files)] of
    scikit-learn: the shuffled indices are cut into [n_splits] sections, and
    each section yields the pair of the indices outside it and the indices in
    it, both read off [arange(n_samples)] through a boolean mask.  [shuffle]
    is the in-place shuffle of the seeded generator. *)

Record KFold : Type := {
  n_splits : Z;
  shuffle : list nat -> list nat
}.

(** The constructor refuses fewer than two splits. *)
Definition kfold (n_splits : Z) (shuffle : list nat -> list nat)
  : result KFold :=
  if n_splits <=? 1 then Raise ValueError
  else Ok {| n_splits := n_splits; shuffle := shuffle |}.

Definition test_mask (test_index : list nat) (i : nat) : bool :=
  existsb (Nat.eqb i) test_index.

Definition split {F : Type} (kf : KFold) (files : list F)
  : result (list (list nat * list nat)) :=
  let n_samples := List.length files in
  if Z.of_nat n_samples <? n_splits kf then Raise ValueError
  else
    let indices := shuffle kf (seq 0 n_samples) in
    let sections :=
      split_sizes (section_sizes n_samples (Z.to_nat (n_splits kf)))
                  indices in
    Ok (map (fun test_index =>
               (filter (fun i => negb (test_mask test_index i))
                       (seq 0 n_samples),
                filter (test_mask test_index) (seq 0 n_samples)))
            sections).

(** Line 57: the [dev_ids] of the folds, in fold order. *)
Definition dev_subsets {F : Type} (k_folds : Z)
    (shuffle : list nat -> list nat) (files : list F)
  : result (list (list nat)) :=
  kf <- kfold k_folds shuffle ;;
  folds <- split kf files ;;
  Ok (map snd folds).

(** Distinct indices of a list of subsets hold no common element. *)
Definition pairwise_disjoint (subsets : list (list nat)) : Prop :=
  forall i j x,
    i <> j ->
    In x (nth i subsets []) -> ~ In x (nth j subsets []).

(** ** The file lists of a fold (cross_validation.py, lines 60-63) *)

(** The list comprehension [[l[idx] for idx in ids]]. *)
Fixpoint pick {A : Type} (l : list A) (ids : list nat) : result (list A) :=
  match ids with
  | [] => Ok []
  | idx :: rest =>
      x <- py_list_get l (Z.of_nat idx) ;;
      xs <- pick l rest ;;
      Ok (x :: xs)
  end.

Record FoldFiles : Type := {
  files_train : list string;
  labels_train : list string;
  files_dev : list string;
  labels_dev : list string
}.

Definition fold_files (files labels : list string)
    (train_ids dev_ids : list nat) : result FoldFiles :=
  files_train <- pick files train_ids ;;
  labels_train <- pick labels train_ids ;;
  files_dev <- pick files dev_ids ;;
  labels_dev <- pick labels dev_ids ;;
  Ok {| files_train := files_train; labels_train := labels_train;
        files_dev := files_dev; labels_dev := labels_dev |}.

(** ** Format strings (cross_validation.py, lines 221, 232, 284 and 290)

    [str.format] works through its template from left to right: text is
    copied, a doubled brace is a literal brace, a closing brace on its own is
    refused with [ValueError] when it is reached, and each field [{}] takes
    the next positional argument, with [IndexError] when none is left.  The
    templates modelled are those whose fields are all the empty field [{}],
    with arguments that [str] accepts, as the floats of the report lines; a
    field with a name, a conversion or a format specification is answered
    [None]. *)

Inductive ScanState : Type :=
| InText
| AfterOpen
| AfterClose.

(** [nargs] arguments are given and [used] of them are taken so far. *)
Fixpoint scan_format (s : string) (st : ScanState) (nargs used : nat)
  : option (result unit) :=
  match s with
  | EmptyString =>
      match st with
      | InText => Some (Ok tt)
      | _ => Some (Raise ValueError)
      end
  | String c rest =>
      let is_open := Ascii.eqb c "{"%char in
      let is_close := Ascii.eqb c "}"%char in
      match st with
      | InText =>
          if is_open then scan_format rest AfterOpen nargs used
          else if is_close then scan_format rest AfterClose nargs used
          else scan_format rest InText nargs used
      | AfterOpen =>
          if is_open then scan_format rest InText nargs used
          else if is_close then
            if (used <? nargs)%nat
            then scan_format rest InText nargs (S used)
            else Some (Raise IndexError)
          else None
      | AfterClose =>
          if is_close then scan_format rest InText nargs used
          else Some (Raise ValueError)
      end
  end.

(** [template.format] on [nargs] positional arguments, as far as raising
    goes. *)
Definition format_raises (template : string) (nargs : nat)
  : option (result unit) :=
  scan_format template InText nargs 0%nat.

(** The template of the final summary, line 290. *)
Definition summary_template : string :=
  "########### Average 3D IoU over folds: {}+-{}}###########".

(** The template of the per-fold summary, line 284. *)
Definition fold_template : string :=
  "###########Min Valid Loss: {}, Min Valid 3D IoU: {}###########".

(** The templates of the two per-epoch report lines, lines 221 and 232. *)
Definition train_template : string :=
  "###########Train Loss: {}+-{}, Train IOU: {}+-{}, Train Threshold IoU: {}+-{}###########".

Definition valid_template : string :=
  "###########Valid Loss: {}+-{}, Valid IOU: {}+-{}, Valid Threshold IoU: {}+-{}, Valid 3D IoU: {}+-{} ###########".

(** A piece of text without braces. *)
Fixpoint brace_free (s : string) : bool :=
  match s with
  | EmptyString => true
  | String c rest =>
      negb (Ascii.eqb c "{"%char) && negb (Ascii.eqb c "}"%char) &&
      brace_free rest
  end.

(** ** Sample runs of the epoch loop *)

(** Metrics of a run whose loss is 0.5 in epoch 0 and 0.6 ever after. *)
Definition flat_after_first : Z -> EpochMetrics :=
  fun epoch =>
    if epoch =? 0
    then {| total_valid_loss_last := 0.5; total_valid_3d_score_last := 0.7 |}
    else {| total_valid_loss_last := 0.6; total_valid_3d_score_last := 0.7 |}.

(** A fold of two epochs: loss 0.5 with 3D score 0.9, then loss 0.4 with 3D
    score 0.7. *)
Definition two_epochs : Z -> EpochMetrics :=
  outcome_of_list 0 [ (0.5, 0.9); (0.4, 0.7) ]%float.

Definition two_epochs_cfg : Settings :=
  {| num_epochs := 2; max_epochs_no_improve := 2 |}.

Definition fresh_ckp : LoadedCkp :=
  {| epoch_start := 0; loaded_valid_loss_min := infinity |}.

(** ** A small implementation of the external interface

    Concrete runs of the adapter need some implementation of [Backend]:
    tensors are arrays, the generators are counters, the warp leaves its
    input alone, and the reader knows one image and one label volume of
    shape (2, 2, 5).  The label is zero throughout depth 1 and depth 3. *)

Definition toy_image : ndarray :=
  {| shape := (2, 2, 5)%nat;
     data := [ [ [10; 11; 12; 13; 14]; [20; 21; 22; 23; 24] ];
               [ [30; 31; 32; 33; 34]; [40; 41; 42; 43; 44] ] ]%float |}.

Definition toy_label : ndarray :=
  {| shape := (2, 2, 5)%nat;
     data := [ [ [1; 0; 0; 0; 0]; [0; 0; 0; 0; 0] ];
               [ [0; 0; 1; 0; 0]; [0; 0; 0; 0; 1] ] ]%float |}.

Definition toy_backend : Backend :=
  {| Tensor := ndarray;
     NpRng := Z;
     PyRng := Z;
     TorchRng := Z;
     nib_load_float32 := fun dir _ =>
       if String.eqb dir "labels" then Ok toy_label else Ok toy_image;
     np_random_randint := fun g high => (g mod high, g + 1);
     random_seed := fun seed => seed;
     torch_manual_seed := fun seed => seed;
     uniform := fun g low _ => (low, (fst g + 1, snd g + 1));
     to_tensor := fun a => a;
     affine := fun t _ _ => t |}.

Definition toy_world : @World toy_backend :=
  @Build_World toy_backend 7 0 0 [].

(** An adapter over one file with blank-slice filtering switched on and no
    transforms. *)
Definition toy_loader : @CustomDataLoader toy_backend :=
  @init toy_backend "images" "labels"
        [ "scan_1.nii"%string ] [ "scan_1.nii"%string ]
        (PyBool false) None None (PyBool true).

(** An adapter over the same file with the two chains of cross_validation.py
    and no blank-slice filtering; clipping and normalisation leave their
    input alone. *)
Definition toy_train_loader : @CustomDataLoader toy_backend :=
  @init toy_backend "images" "labels"
        [ "scan_1.nii"%string ] [ "scan_1.nii"%string ] (PyBool true)
        (Some (@train_transforms toy_backend (fun x => Ok x) (fun x => Ok x)))
        (Some (@train_target_transforms toy_backend)) (PyBool false).

(** A test adapter over the sample file with the image chain of the
    validation adapter. *)
Definition toy_test_loader : @CustomTestLoader toy_backend :=
  @test_init toy_backend "images" [ "scan_1.nii"%string ]
    (Some (@valid_transforms toy_backend (fun x => Ok x) (fun x => Ok x))).

(** The same implementation with a label volume one slice short of the
    image. *)
Definition toy_short_label : ndarray :=
  {| shape := (2, 2, 4)%nat;
     data := [ [ [1; 0; 0; 0]; [0; 0; 0; 0] ];
               [ [0; 0; 1; 0]; [0; 0; 0; 0] ] ]%float |}.

Definition toy_backend_short : Backend :=
  {| Tensor := ndarray;
     NpRng := Z;
     PyRng := Z;
     TorchRng := Z;
     nib_load_float32 := fun dir _ =>
       if String.eqb dir "labels" then Ok toy_short_label else Ok toy_image;
     np_random_randint := fun g high => (g mod high, g + 1);
     random_seed := fun seed => seed;
     torch_manual_seed := fun seed => seed;
     uniform := fun g low _ => (low, (fst g + 1, snd g + 1));
     to_tensor := fun a => a;
     affine := fun t _ _ => t |}.

Definition toy_loader_short : @CustomDataLoader toy_backend_short :=
  @init toy_backend_short "images" "labels"
        [ "scan_1.nii"%string ] [ "scan_1.nii"%string ]
        (PyBool true) None None (PyBool true).

Definition toy_world_short : @World toy_backend_short :=
  @Build_World toy_backend_short 7 0 0 [].

(** * Properties of the epoch loop *)

Lemma epoch_update_improved fold epoch m st :
  improved m st = true ->
  epoch_update fold epoch m st =
  {| valid_loss_min := total_valid_loss_last m;
     valid_iou_min := total_valid_3d_score_last m;
     epochs_no_improve := 0;
     saved := saved st ++
              [ {| sc_state := {| ck_fold := fold + 1;
                                  ck_epoch := epoch + 1;
                                  ck_valid_loss_min :=
                                    total_valid_loss_last m |};
                   sc_is_best := true;
                   sc_checkpoint_path := EpochFile (fold + 1) (epoch + 1);
                   sc_best_model_path := BestModelFile (fold + 1) |} ] |}.
Proof.
  intros Himp. unfold epoch_update. rewrite Himp. reflexivity.
Qed.

Lemma epoch_update_not_improved fold epoch m st :
  improved m st = false ->
  epoch_update fold epoch m st =
  {| valid_loss_min := valid_loss_min st;
     valid_iou_min := valid_iou_min st;
     epochs_no_improve := epochs_no_improve st + 1;
     saved := saved st |}.
Proof.
  intros Himp. unfold epoch_update. rewrite Himp. reflexivity.
Qed.

Lemma state_after_0 fold outcome epochs st :
  state_after fold outcome epochs st 0 = st.
Proof. reflexivity. Qed.

Lemma state_after_S fold outcome epoch rest st n :
  state_after fold outcome (epoch :: rest) st (S n) =
  state_after fold outcome rest
    (epoch_update fold epoch (outcome epoch) st) n.
Proof. reflexivity. Qed.

Lemma epoch_loop_cons mx fold outcome epoch rest st :
  epoch_loop mx fold outcome (epoch :: rest) st =
  let st' := epoch_update fold epoch (outcome epoch) st in
  let t := {| tr_epoch := epoch;
              tr_improved := improved (outcome epoch) st |} in
  if epochs_no_improve st' >? mx then (st', [t])
  else (fst (epoch_loop mx fold outcome rest st'),
        t :: snd (epoch_loop mx fold outcome rest st')).
Proof.
  cbn [epoch_loop]. cbv zeta.
  destruct (epochs_no_improve _ >? mx); [reflexivity|].
  destruct (epoch_loop mx fold outcome rest _); reflexivity.
Qed.

(** Where the loop stops: [n] epochs ran, they are the first [n] of the
    list, the counter never exceeded the maximum before the last of them, and
    either the counter exceeds it after the last one or the list is used
    up. *)
Lemma epoch_loop_stops mx fold outcome epochs : forall st,
  let n := List.length (snd (epoch_loop mx fold outcome epochs st)) in
  epochs_run (snd (epoch_loop mx fold outcome epochs st)) = firstn n epochs /\
  fst (epoch_loop mx fold outcome epochs st) =
    state_after fold outcome epochs st n /\
  (forall i, (0 < i < n)%nat ->
     epochs_no_improve (state_after fold outcome epochs st i) <= mx) /\
  ((0 < n)%nat /\
   epochs_no_improve (state_after fold outcome epochs st n) > mx
   \/
   n = List.length epochs /\
   (forall i, (0 < i <= n)%nat ->
      epochs_no_improve (state_after fold outcome epochs st i) <= mx)).
Proof.
  induction epochs as [|epoch rest IH]; intros st.
  - cbn. repeat split; try (intros; lia).
    right. split; [reflexivity|intros; lia].
  - cbv zeta. rewrite epoch_loop_cons. cbv zeta.
    set (st' := epoch_update fold epoch (outcome epoch) st).
    destruct (epochs_no_improve st' >? mx) eqn:Hstop.
    + cbn [snd fst List.length epochs_run map firstn tr_epoch].
      repeat split; try (intros; lia).
      left. split; [lia|]. rewrite state_after_S, state_after_0.
      fold st'. apply Z.gtb_lt in Hstop. lia.
    + specialize (IH st'). cbv zeta in IH.
      destruct IH as (Hrun & Hst & Hbefore & Hend).
      cbn [snd fst List.length epochs_run map firstn tr_epoch].
      unfold epochs_run in Hrun.
      assert (Hle : epochs_no_improve st' <= mx).
      { destruct (Z.gtb_spec (epochs_no_improve st') mx); [discriminate|lia]. }
      split; [rewrite Hrun; reflexivity|].
      split; [rewrite state_after_S; exact Hst|].
      split.
      * intros [|i] Hi; [lia|]. rewrite state_after_S.
        destruct i as [|i]; [rewrite state_after_0; exact Hle|].
        apply Hbefore. lia.
      * destruct Hend as [[Hpos Hgt]|[Hlen Hall]].
        -- left. split; [lia|]. rewrite state_after_S. exact Hgt.
        -- right. split; [lia|].
           intros [|i] Hi; [lia|]. rewrite state_after_S.
           destruct i as [|i]; [rewrite state_after_0; exact Hle|].
           apply Hall. lia.
Qed.

(** The flag recorded for the [i]-th epoch that ran is the outcome of the
    test of line 244 on the state the loop had reached before it. *)
Lemma epoch_loop_flags mx fold outcome epochs : forall st i,
  (i < List.length (snd (epoch_loop mx fold outcome epochs st)))%nat ->
  nth i (improvement_flags (snd (epoch_loop mx fold outcome epochs st)))
      false =
  improved (outcome (nth i epochs 0))
           (state_after fold outcome epochs st i).
Proof.
  induction epochs as [|epoch rest IH]; intros st i Hi.
  - cbn in Hi. lia.
  - rewrite epoch_loop_cons in *. cbv zeta in *.
    set (st' := epoch_update fold epoch (outcome epoch) st) in *.
    destruct (epochs_no_improve st' >? mx).
    + cbn in Hi. assert (i = 0%nat) by lia. subst i. reflexivity.
    + cbn [snd List.length] in Hi.
      destruct i as [|i]; [reflexivity|].
      cbn [snd improvement_flags map nth]. rewrite state_after_S.
      fold st'. apply IH. lia.
Qed.

Lemma py_range_cons start stop :
  start < stop ->
  py_range start stop = start :: py_range (start + 1) stop.
Proof.
  intros Hlt. unfold py_range.
  replace (Z.to_nat (stop - start)) with (S (Z.to_nat (stop - (start + 1))))
    by lia.
  cbn [seq map]. f_equal; [lia|].
  rewrite <- seq_shift, map_map. apply map_ext. intros i. lia.
Qed.

Lemma py_range_nil start stop :
  stop <= start -> py_range start stop = [].
Proof.
  intros Hle. unfold py_range.
  replace (Z.to_nat (stop - start)) with 0%nat by lia. reflexivity.
Qed.

(** The value a fold leaves in [valid_iou_min]. *)
Lemma epoch_loop_valid_iou_min mx fold outcome epochs : forall st,
  valid_iou_min (fst (epoch_loop mx fold outcome epochs st)) =
  match last_improved (snd (epoch_loop mx fold outcome epochs st)) with
  | Some e => total_valid_3d_score_last (outcome e)
  | None => valid_iou_min st
  end.
Proof.
  induction epochs as [|epoch rest IH]; intros st; [reflexivity|].
  rewrite epoch_loop_cons. cbv zeta.
  set (st' := epoch_update fold epoch (outcome epoch) st).
  assert (Hst' : valid_iou_min st' =
                 if improved (outcome epoch) st
                 then total_valid_3d_score_last (outcome epoch)
                 else valid_iou_min st).
  { unfold st', epoch_update. destruct (improved (outcome epoch) st);
      reflexivity. }
  destruct (epochs_no_improve st' >? mx).
  - cbn [fst snd last_improved tr_improved tr_epoch]. rewrite Hst'.
    destruct (improved (outcome epoch) st); reflexivity.
  - cbn [fst snd last_improved tr_improved tr_epoch]. rewrite IH.
    destruct (last_improved _); [reflexivity|]. rewrite Hst'.
    destruct (improved (outcome epoch) st); reflexivity.
Qed.

Lemma outcome_of_list_at start ms i epoch l s :
  epoch = start + Z.of_nat i ->
  nth i ms (nan, nan) = (l, s) ->
  outcome_of_list start ms epoch =
  {| total_valid_loss_last := l; total_valid_3d_score_last := s |}.
Proof.
  intros -> Hnth. unfold outcome_of_list.
  replace (Z.to_nat (start + Z.of_nat i - start)) with i by lia.
  rewrite Hnth. reflexivity.
Qed.

Lemma py_range_4 start :
  py_range start (start + 4) = [start; start + 1; start + 2; start + 3].
Proof.
  rewrite py_range_cons by lia.
  rewrite (py_range_cons (start + 1)) by lia.
  rewrite (py_range_cons (start + 1 + 1)) by lia.
  rewrite (py_range_cons (start + 1 + 1 + 1)) by lia.
  rewrite py_range_nil by lia.
  repeat (f_equal; try lia).
Qed.

(** C1: an epoch counts as improved exactly when its mean validation loss
    is less than or equal to [valid_loss_min], the best loss of the fold so
    far, ties included.  On improvement the loop calls [save_ckp] once, sets
    the counter to zero and takes the loss as the new best; otherwise it adds
    one to the counter and leaves the rest alone.  This holds for every epoch
    a fold runs.  For the validation losses 0.5, 0.5, 0.4, 0.6 and an
    infinite initial best the flags are true, true, true, false. *)
Theorem improved_iff_loss_le_best :
  (forall fold epoch m st,
     improved m st =
       PrimFloat.leb (total_valid_loss_last m) (valid_loss_min st) /\
     (improved m st = true ->
      epoch_update fold epoch m st =
      {| valid_loss_min := total_valid_loss_last m;
         valid_iou_min := total_valid_3d_score_last m;
         epochs_no_improve := 0;
         saved := saved st ++
                  [ {| sc_state := {| ck_fold := fold + 1;
                                      ck_epoch := epoch + 1;
                                      ck_valid_loss_min :=
                                        total_valid_loss_last m |};
                       sc_is_best := true;
                       sc_checkpoint_path :=
                         EpochFile (fold + 1) (epoch + 1);
                       sc_best_model_path := BestModelFile (fold + 1) |} ]
      |}) /\
     (improved m st = false ->
      epoch_update fold epoch m st =
      {| valid_loss_min := valid_loss_min st;
         valid_iou_min := valid_iou_min st;
         epochs_no_improve := epochs_no_improve st + 1;
         saved := saved st |})) /\
  (forall mx fold outcome epochs st i,
     (i < List.length (snd (epoch_loop mx fold outcome epochs st)))%nat ->
     nth i (improvement_flags (snd (epoch_loop mx fold outcome epochs st)))
         false =
     PrimFloat.leb
       (total_valid_loss_last (outcome (nth i epochs 0)))
       (valid_loss_min (state_after fold outcome epochs st i))) /\
  (forall cfg fold start s1 s2 s3 s4,
     num_epochs cfg = 4 ->
     0 <= max_epochs_no_improve cfg ->
     improvement_flags
       (snd (run_fold cfg fold
               {| epoch_start := start; loaded_valid_loss_min := infinity |}
               (outcome_of_list start
                  [ (0.5, s1); (0.5, s2); (0.4, s3); (0.6, s4) ]%float))) =
     [true; true; true; false]).
Proof.
  split; [|split].
  - intros fold epoch m st. split; [reflexivity|]. split.
    + apply epoch_update_improved.
    + apply epoch_update_not_improved.
  - intros mx fold outcome epochs st i Hi.
    rewrite epoch_loop_flags by exact Hi. reflexivity.
  - intros cfg fold start s1 s2 s3 s4 Hnum Hmax.
    unfold run_fold. cbn [epoch_start]. rewrite Hnum, py_range_4.
    set (out := outcome_of_list start _).
    assert (H0 : out start = {| total_valid_loss_last := 0.5;
                                total_valid_3d_score_last := s1 |}).
    { apply (outcome_of_list_at start _ 0); [lia|reflexivity]. }
    assert (H1 : out (start + 1) = {| total_valid_loss_last := 0.5;
                                      total_valid_3d_score_last := s2 |}).
    { apply (outcome_of_list_at start _ 1); [lia|reflexivity]. }
    assert (H2 : out (start + 2) = {| total_valid_loss_last := 0.4;
                                      total_valid_3d_score_last := s3 |}).
    { apply (outcome_of_list_at start _ 2); [lia|reflexivity]. }
    assert (H3 : out (start + 3) = {| total_valid_loss_last := 0.6;
                                      total_valid_3d_score_last := s4 |}).
    { apply (outcome_of_list_at start _ 3); [lia|reflexivity]. }
    assert (Hgt0 : (0 >? max_epochs_no_improve cfg) = false).
    { destruct (Z.gtb_spec 0 (max_epochs_no_improve cfg)); [lia|reflexivity]. }
    rewrite epoch_loop_cons. cbv zeta. rewrite H0.
    rewrite epoch_update_improved by reflexivity.
    cbn [epochs_no_improve]. rewrite Hgt0. cbn [snd].
    rewrite epoch_loop_cons. cbv zeta. rewrite H1.
    rewrite epoch_update_improved by reflexivity.
    cbn [epochs_no_improve]. rewrite Hgt0. cbn [snd].
    rewrite epoch_loop_cons. cbv zeta. rewrite H2.
    rewrite epoch_update_improved by reflexivity.
    cbn [epochs_no_improve]. rewrite Hgt0. cbn [snd].
    rewrite epoch_loop_cons. cbv zeta. rewrite H3.
    rewrite epoch_update_not_improved by reflexivity.
    cbn [epochs_no_improve].
    destruct (0 + 1 >? max_epochs_no_improve cfg); reflexivity.
Qed.

(** The four losses of C1 in a fold of four epochs with a patience of 2. *)
Lemma improved_iff_loss_le_best_witness :
  improvement_flags
    (snd (run_fold {| num_epochs := 4; max_epochs_no_improve := 2 |} 0
            {| epoch_start := 0; loaded_valid_loss_min := infinity |}
            (outcome_of_list 0
               [ (0.5, 0.9); (0.5, 0.8); (0.4, 0.7); (0.6, 0.95) ]%float))) =
  [true; true; true; false].
Proof.
  apply (proj2 (proj2 improved_iff_loss_le_best)
           {| num_epochs := 4; max_epochs_no_improve := 2 |}).
  - reflexivity.
  - cbn. lia.
Defined.

(** C3: the epoch loop of a fold ends after the first epoch at whose end
    the no-improve counter is strictly greater than [max_epochs_no_improve],
    or after the last of the [num_epochs] epochs when that comes first: the
    epochs that ran are an initial part of the budget, the counter did not
    exceed the maximum after any earlier epoch, and either it exceeds the
    maximum after the last epoch that ran or the budget is used up.  With a
    maximum of 2, an improving first epoch, no improvement afterwards and a
    budget of at least 4 epochs, exactly the first 4 epochs run. *)
Theorem early_stopping_rule :
  (forall cfg fold ckp outcome,
     let epochs :=
       py_range (epoch_start ckp) (epoch_start ckp + num_epochs cfg) in
     let counter_after i :=
       epochs_no_improve
         (state_after fold outcome epochs (fold_init ckp) i) in
     let n := List.length (snd (run_fold cfg fold ckp outcome)) in
     List.length epochs = Z.to_nat (num_epochs cfg) /\
     epochs_run (snd (run_fold cfg fold ckp outcome)) = firstn n epochs /\
     fst (run_fold cfg fold ckp outcome) =
       state_after fold outcome epochs (fold_init ckp) n /\
     (forall i, (0 < i < n)%nat ->
        counter_after i <= max_epochs_no_improve cfg) /\
     ((0 < n)%nat /\ counter_after n > max_epochs_no_improve cfg
      \/
      n = Z.to_nat (num_epochs cfg) /\
      (forall i, (0 < i <= n)%nat ->
         counter_after i <= max_epochs_no_improve cfg))) /\
  (forall cfg fold ckp outcome,
     max_epochs_no_improve cfg = 2 ->
     4 <= num_epochs cfg ->
     improved (outcome (epoch_start ckp)) (fold_init ckp) = true ->
     (forall epoch,
        epoch_start ckp < epoch ->
        PrimFloat.leb (total_valid_loss_last (outcome epoch))
          (total_valid_loss_last (outcome (epoch_start ckp))) = false) ->
     epochs_run (snd (run_fold cfg fold ckp outcome)) =
     [ epoch_start ckp; epoch_start ckp + 1; epoch_start ckp + 2;
       epoch_start ckp + 3 ]).
Proof.
  split.
  - intros cfg fold ckp outcome epochs counter_after n.
    assert (Hlen : List.length epochs = Z.to_nat (num_epochs cfg)).
    { unfold epochs, py_range. rewrite length_map, length_seq. f_equal. lia. }
    pose proof (epoch_loop_stops (max_epochs_no_improve cfg) fold outcome
                  epochs (fold_init ckp)) as H.
    cbv zeta in H. fold (run_fold cfg fold ckp outcome) in H. fold n in H.
    destruct H as (Hrun & Hst & Hbefore & Hend).
    split; [exact Hlen|]. split; [exact Hrun|]. split; [exact Hst|].
    split; [exact Hbefore|].
    destruct Hend as [Hstop|[Hn Hall]]; [left; exact Hstop|right].
    split; [exact (eq_trans Hn Hlen)|exact Hall].
  - intros cfg fold ckp outcome Hmax Hnum Hfirst Hlater.
    unfold run_fold. rewrite Hmax.
    set (e0 := epoch_start ckp) in *.
    rewrite (py_range_cons e0) by lia.
    rewrite (py_range_cons (e0 + 1)) by lia.
    rewrite (py_range_cons (e0 + 1 + 1)) by lia.
    rewrite (py_range_cons (e0 + 1 + 1 + 1)) by lia.
    rewrite epoch_loop_cons. cbv zeta.
    rewrite epoch_update_improved by exact Hfirst.
    cbn [epochs_no_improve]. change (0 >? 2) with false. cbn [snd].
    rewrite epoch_loop_cons. cbv zeta.
    rewrite epoch_update_not_improved by (apply Hlater; lia).
    cbn [epochs_no_improve valid_loss_min valid_iou_min saved].
    change (0 + 1 >? 2) with false. cbn [snd].
    rewrite epoch_loop_cons. cbv zeta.
    rewrite epoch_update_not_improved by (apply Hlater; lia).
    cbn [epochs_no_improve valid_loss_min valid_iou_min saved].
    change (0 + 1 + 1 >? 2) with false. cbn [snd].
    rewrite epoch_loop_cons. cbv zeta.
    rewrite epoch_update_not_improved by (apply Hlater; lia).
    cbn [epochs_no_improve valid_loss_min valid_iou_min saved].
    change (0 + 1 + 1 + 1 >? 2) with true.
    cbn [snd epochs_run map tr_epoch].
    repeat (f_equal; try lia).
Qed.

(** A fold with a budget of 10 epochs whose loss never improves after the
    first epoch: it stops after 4 epochs. *)
Lemma early_stopping_rule_witness :
  epochs_run
    (snd (run_fold {| num_epochs := 10; max_epochs_no_improve := 2 |} 0
            {| epoch_start := 0; loaded_valid_loss_min := infinity |}
            flat_after_first)) =
  [0; 1; 2; 3].
Proof.
  apply (proj2 early_stopping_rule
           {| num_epochs := 10; max_epochs_no_improve := 2 |} 0
           {| epoch_start := 0; loaded_valid_loss_min := infinity |}
           flat_after_first).
  - reflexivity.
  - cbn. lia.
  - reflexivity.
  - intros epoch Hlt. cbn in Hlt. unfold flat_after_first.
    destruct (Z.eqb_spec epoch 0) as [Heq|Hne]; [lia|reflexivity].
Defined.

Lemma last_improved_split ts :
  match last_improved ts with
  | Some e =>
      exists before after,
        ts = before ++ {| tr_epoch := e; tr_improved := true |} :: after /\
        Forall (fun t => tr_improved t = false) after
  | None => Forall (fun t => tr_improved t = false) ts
  end.
Proof.
  induction ts as [|[e b] rest IH]; cbn [last_improved]; [constructor|].
  destruct (last_improved rest) as [e'|].
  - destruct IH as (before & after & -> & Hafter).
    exists ({| tr_epoch := e; tr_improved := b |} :: before), after.
    split; [reflexivity|exact Hafter].
  - cbn [tr_improved tr_epoch]. destruct b.
    + exists [], rest. split; [reflexivity|exact IH].
    + constructor; [reflexivity|exact IH].
Qed.

(** C4, counterexample: in a fold whose two epochs have losses 0.5 and 0.4
    and 3D scores 0.9 and 0.7, the value recorded for the fold is 0.7 while
    the largest 3D score of the fold is 0.9. *)
Lemma recorded_score_not_max :
  min_ious two_epochs_cfg [ (fresh_ckp, two_epochs) ] = [ 0.7%float ] /\
  max_score
    (scores_of_run two_epochs
       (snd (run_fold two_epochs_cfg 0 fresh_ckp two_epochs))) = 0.9%float /\
  PrimFloat.ltb 0.7 0.9 = true.
Proof. repeat split. Qed.

(** C4, amended: the value recorded for a fold in [min_ious] is the mean 3D
    score of the last epoch of the fold whose validation loss passed the test
    of line 244, that is of the epoch of the fold's best checkpoint, and it
    is the initial infinity when no epoch of the fold passed the test; the
    list holds one such value per fold, in fold order. *)
Theorem recorded_score_at_best_loss :
  (forall cfg fold ckp outcome,
     valid_iou_min (fst (run_fold cfg fold ckp outcome)) =
     score_at_best_loss outcome (snd (run_fold cfg fold ckp outcome))) /\
  (forall cfg folds,
     min_ious cfg folds =
     map (fun '(fold, (ckp, outcome)) =>
            score_at_best_loss outcome
              (snd (run_fold cfg (Z.of_nat fold) ckp outcome)))
         (combine (seq 0 (List.length folds)) folds)) /\
  (forall ts,
     match last_improved ts with
     | Some e =>
         exists before after,
           ts = before ++ {| tr_epoch := e; tr_improved := true |} :: after /\
           Forall (fun t => tr_improved t = false) after
     | None => Forall (fun t => tr_improved t = false) ts
     end).
Proof.
  assert (Hfold : forall cfg fold ckp outcome,
             valid_iou_min (fst (run_fold cfg fold ckp outcome)) =
             score_at_best_loss outcome
               (snd (run_fold cfg fold ckp outcome))).
  { intros cfg fold ckp outcome. unfold run_fold, score_at_best_loss.
    rewrite epoch_loop_valid_iou_min.
    destruct (last_improved _); reflexivity. }
  split; [exact Hfold|]. split; [|exact last_improved_split].
  intros cfg folds. unfold min_ious. apply map_ext.
  intros [fold [ckp outcome]]. apply Hfold.
Qed.

(** * Properties of the dataset adapter *)

Lemma map_nth_seq {A B : Type} (g : A -> B) (l : list A) (d : A) :
  map (fun k => g (nth k l d)) (seq 0 (List.length l)) = map g l.
Proof.
  induction l as [|x l IH]; [reflexivity|].
  cbn [List.length seq map nth]. f_equal.
  rewrite <- seq_shift, map_map. exact IH.
Qed.

Lemma nth_map_in_range {A B : Type} (f : A -> B) (l : list A) (k : nat)
    (da : A) (db : B) :
  (k < List.length l)%nat -> nth k (map f l) db = f (nth k l da).
Proof.
  intros Hk. rewrite (nth_indep _ db (f da)) by (rewrite length_map; exact Hk).
  apply map_nth.
Qed.

Lemma depth_index_axis2 a mask a' :
  index_axis2 a mask = Ok a' ->
  depth a' = List.length (nonzero mask) /\
  fst (shape a') = fst (shape a) /\
  data a' =
    map (map (fun cell => map (fun d => nth d cell 0%float) (nonzero mask)))
        (data a).
Proof.
  unfold index_axis2. destruct (Nat.eqb _ _); [|discriminate].
  intros [= <-]. repeat split.
Qed.

(** Indexing the depth axis keeps the array rectangular, with the height
    and the width it had. *)
Lemma index_axis2_well_shaped a mask a' :
  well_shaped a ->
  index_axis2 a mask = Ok a' ->
  well_shaped a' /\ fst (shape a') = fst (shape a).
Proof.
  intros Hws Hidx.
  destruct (depth_index_axis2 _ _ _ Hidx) as (Hd & Hhw & Hdata).
  split; [|exact Hhw].
  unfold well_shaped, depth in *.
  destruct (shape a) as [[h w] d], (shape a') as [[h' w'] d'].
  cbn [fst snd] in *. injection Hhw as -> ->. subst d'.
  destruct Hws as [Hlen Hrows]. rewrite Hdata. split.
  - rewrite length_map. exact Hlen.
  - apply Forall_map. eapply Forall_impl; [|exact Hrows].
    intros row [Hw _]. split.
    + rewrite length_map. exact Hw.
    + apply Forall_map, Forall_forall. intros cell _.
      apply length_map.
Qed.

Lemma toy_volumes_well_shaped : well_shaped toy_image /\ well_shaped toy_label.
Proof.
  split; (split; [reflexivity|]); repeat constructor.
Qed.

(** Indexing the depth axis by a mask keeps the depth slices at the set
    positions of the mask, in increasing order of position. *)
Lemma depth_slices_index_axis2 a mask a' :
  index_axis2 a mask = Ok a' ->
  depth_slices a' = map (slice_at a) (nonzero mask).
Proof.
  intros H. destruct (depth_index_axis2 _ _ _ H) as (Hd & _ & Hdata).
  unfold depth_slices. rewrite Hd.
  rewrite <- (map_nth_seq (slice_at a) (nonzero mask) 0%nat).
  apply map_ext_in. intros k Hk. apply in_seq in Hk.
  unfold slice_at. rewrite Hdata, map_map.
  apply map_ext. intros row. rewrite map_map.
  apply map_ext. intros cell.
  apply (nth_map_in_range (fun d => nth d cell 0%float)). lia.
Qed.

Lemma existsb_negb_forallb {A : Type} (p : A -> bool) (l : list A) :
  existsb (fun x => negb (p x)) l = negb (forallb p l).
Proof.
  induction l as [|x l IH]; [reflexivity|].
  cbn. rewrite IH. destruct (p x); reflexivity.
Qed.

Lemma forallb_map' {A B : Type} (f : A -> B) (p : B -> bool) (l : list A) :
  forallb p (map f l) = forallb (fun x => p (f x)) l.
Proof.
  induction l as [|x l IH]; [reflexivity|]. cbn. rewrite IH. reflexivity.
Qed.

(** The flag that [any((0, 1))] computes for a depth index says that the
    label slice there is not entirely zero. *)
Lemma any_flag_not_all_zero label d :
  existsb (existsb (fun cell => ne_zero (nth d cell 0%float))) (data label) =
  negb (all_zero (slice_at label d)).
Proof.
  unfold all_zero, slice_at, ne_zero.
  rewrite forallb_map', <- existsb_negb_forallb.
  induction (data label) as [|row rows IH]; [reflexivity|].
  cbn [existsb]. rewrite IH. f_equal.
  rewrite forallb_map'. apply existsb_negb_forallb.
Qed.

Lemma nonzero_any_axes label :
  nonzero (any_axes_0_1 label) = labelled_depths label.
Proof.
  unfold nonzero, any_axes_0_1, labelled_depths.
  rewrite length_map, length_seq.
  apply filter_ext_in. intros d Hd. apply in_seq in Hd.
  rewrite <- any_flag_not_all_zero.
  rewrite (nth_map_in_range _ _ _ 0%nat) by (rewrite length_seq; lia).
  rewrite seq_nth by lia. reflexivity.
Qed.

Lemma drop_blanks_ok `{Backend} (self : CustomDataLoader) label img :
  filters_blanks self = true ->
  depth img = depth label ->
  exists label' img',
    drop_blanks self label img = Ok (label', img') /\
    index_axis2 label (any_axes_0_1 label) = Ok label' /\
    index_axis2 img (any_axes_0_1 label) = Ok img'.
Proof.
  intros Hf Hd. unfold drop_blanks. rewrite Hf.
  assert (Hl : List.length (any_axes_0_1 label) = depth label).
  { unfold any_axes_0_1. rewrite length_map, length_seq. reflexivity. }
  unfold index_axis2. rewrite Hl, Hd, Nat.eqb_refl. cbn [bind].
  eexists _, _. repeat split.
Qed.

(** C6: when the test of line 50 holds, [__getitem__] hands to the
    augmentation an image and a label from which the depth slices whose
    label slice is entirely zero have been removed, and nothing else: the
    depth slices of both results are the slices of the loaded volumes at the
    depth indices whose label slice is not entirely zero, in increasing
    order of index.  For a label of depth 5 whose entirely-zero slices are
    those at indices 1 and 3, the slices at indices 0, 2 and 4 remain, in
    that order, in both volumes. *)
Theorem blank_slices_removed `{Backend} (self : CustomDataLoader)
    (idx : Z) (w : World) (img_name label_name : string)
    (img label : ndarray) :
  filters_blanks self = true ->
  py_list_get (files self) idx = Ok img_name ->
  py_list_get (lables self) idx = Ok label_name ->
  nib_load_float32 (root_dir self) img_name = Ok img ->
  nib_load_float32 (seg_dir self) label_name = Ok label ->
  depth img = depth label ->
  exists label' img',
    drop_blanks self label img = Ok (label', img') /\
    getitem self idx w = augment self img' label' w /\
    depth_slices label' = map (slice_at label) (labelled_depths label) /\
    depth_slices img' = map (slice_at img) (labelled_depths label) /\
    labelled_depths label =
      filter (fun d => negb (all_zero (slice_at label d)))
             (seq 0 (depth label)) /\
    (forall d, In d (labelled_depths label) <->
               (d < depth label)%nat /\
               all_zero (slice_at label d) = false) /\
    (depth label = 5%nat ->
     (forall d, (d < 5)%nat ->
        all_zero (slice_at label d) = Nat.eqb d 1 || Nat.eqb d 3) ->
     depth_slices label' =
       [ slice_at label 0; slice_at label 2; slice_at label 4 ] /\
     depth_slices img' =
       [ slice_at img 0; slice_at img 2; slice_at img 4 ]).
Proof.
  intros Hf Hin Hln Hi Hl Hd.
  destruct (drop_blanks_ok self label img Hf Hd)
    as (label' & img' & Hdrop & Hlabel' & Himg').
  exists label', img'.
  assert (Hsl : depth_slices label' =
                map (slice_at label) (labelled_depths label)).
  { rewrite (depth_slices_index_axis2 _ _ _ Hlabel').
    rewrite nonzero_any_axes. reflexivity. }
  assert (Hsi : depth_slices img' =
                map (slice_at img) (labelled_depths label)).
  { rewrite (depth_slices_index_axis2 _ _ _ Himg').
    rewrite nonzero_any_axes. reflexivity. }
  split; [exact Hdrop|]. split.
  { unfold getitem. rewrite Hin, Hln. cbn [bind]. rewrite Hi, Hl.
    cbn [bind]. rewrite Hdrop. reflexivity. }
  split; [exact Hsl|]. split; [exact Hsi|]. split; [reflexivity|]. split.
  { intros d. unfold labelled_depths. rewrite filter_In, in_seq.
    rewrite negb_true_iff. split; intros [H1 H2]; (split; [lia|exact H2]). }
  intros H5 Hzero.
  assert (Hkept : labelled_depths label = [0; 2; 4]%nat).
  { unfold labelled_depths. rewrite H5. cbn [seq filter].
    rewrite !Hzero by lia. reflexivity. }
  rewrite Hsl, Hsi, Hkept. split; reflexivity.
Qed.

(** The sample volumes: the label is blank at depths 1 and 3, and the depth
    slices 0, 2 and 4 of both volumes remain. *)
Lemma blank_slices_removed_witness :
  exists label' img',
    drop_blanks toy_loader toy_label toy_image = Ok (label', img') /\
    depth_slices label' =
      [ [ [1; 0]; [0; 0] ]; [ [0; 0]; [1; 0] ]; [ [0; 0]; [0; 1] ] ]%float /\
    depth_slices img' =
      [ [ [10; 20]; [30; 40] ]; [ [12; 22]; [32; 42] ];
        [ [14; 24]; [34; 44] ] ]%float.
Proof.
  destruct (@blank_slices_removed toy_backend toy_loader 0 toy_world
              "scan_1.nii" "scan_1.nii" toy_image toy_label)
    as (label' & img' & Hdrop & _ & _ & _ & _ & _ & Hex);
    try reflexivity.
  exists label', img'. split; [exact Hdrop|].
  apply Hex; [reflexivity|].
  intros d Hd.
  destruct d as [|[|[|[|[|d]]]]]; try reflexivity. lia.
Defined.

Lemma filters_blanks_init `{Backend} root seg fs ls it tf ttf sb :
  filters_blanks (init root seg fs ls it tf ttf sb) = truthy sb.
Proof.
  unfold filters_blanks, init, py_and. cbn [skip_blank is_train].
  destruct (truthy sb) eqn:Hsb; [reflexivity|exact Hsb].
Qed.

(** C10: [__init__] stores the one-element tuple [(is_train,)], which is
    true under Python's truth test whatever [is_train] is; so the test of
    line 50 comes out as the truth value of [skip_blank] alone, and
    [__getitem__] returns the same for any two values of [is_train].
    Whatever [is_train] is, lines 51-53 run exactly when [skip_blank] is
    true: the label and the image are then indexed by the mask of the label,
    and for volumes of equal depth [__getitem__] hands to the augmentation
    the two volumes without the depth slices whose label slice is entirely
    zero; when [skip_blank] is false the volumes are left as loaded. *)
Theorem is_train_has_no_effect `{Backend} (root seg : string)
    (fs ls : list string) (it : PyVal)
    (tf ttf : option (list Transform)) (sb : PyVal) :
  let self := init root seg fs ls it tf ttf sb in
  is_train self = PyTuple [it] /\
  truthy (is_train self) = true /\
  filters_blanks self = truthy sb /\
  filters_blanks (init root seg fs ls it tf ttf (PyBool true)) = true /\
  (forall it' idx w,
     getitem self idx w = getitem (init root seg fs ls it' tf ttf sb) idx w) /\
  (forall label img,
     drop_blanks self label img =
     if truthy sb then
       (label' <- index_axis2 label (any_axes_0_1 label) ;;
        img' <- index_axis2 img (any_axes_0_1 label) ;;
        Ok (label', img'))
     else Ok (label, img)) /\
  (forall idx w img_name label_name img label,
     truthy sb = true ->
     py_list_get fs idx = Ok img_name ->
     py_list_get ls idx = Ok label_name ->
     nib_load_float32 root img_name = Ok img ->
     nib_load_float32 seg label_name = Ok label ->
     depth img = depth label ->
     exists label' img',
       drop_blanks self label img = Ok (label', img') /\
       getitem self idx w = augment self img' label' w /\
       depth_slices label' =
         map (slice_at label) (labelled_depths label) /\
       depth_slices img' =
         map (slice_at img) (labelled_depths label) /\
       depth img' = List.length (labelled_depths label)).
Proof.
  cbv zeta. split; [reflexivity|]. split; [reflexivity|].
  split; [apply filters_blanks_init|].
  split; [apply filters_blanks_init|].
  split.
  { intros it' idx w. unfold getitem, drop_blanks.
    rewrite !filters_blanks_init. reflexivity. }
  split.
  { intros label img. unfold drop_blanks. rewrite filters_blanks_init.
    reflexivity. }
  intros idx w img_name label_name img label Hsb Hin Hln Hi Hl Hd.
  set (self := init root seg fs ls it tf ttf sb).
  assert (Hf : filters_blanks self = true).
  { unfold self. rewrite filters_blanks_init. exact Hsb. }
  destruct (drop_blanks_ok self label img Hf Hd)
    as (label' & img' & Hdrop & Hlabel' & Himg').
  exists label', img'.
  split; [exact Hdrop|]. split.
  { unfold getitem. cbn [self init files lables root_dir seg_dir].
    rewrite Hin, Hln. cbn [bind]. rewrite Hi, Hl. cbn [bind].
    fold self. rewrite Hdrop. reflexivity. }
  split.
  { rewrite (depth_slices_index_axis2 _ _ _ Hlabel'), nonzero_any_axes.
    reflexivity. }
  split.
  { rewrite (depth_slices_index_axis2 _ _ _ Himg'), nonzero_any_axes.
    reflexivity. }
  destruct (depth_index_axis2 _ _ _ Himg') as (Hdep & _ & _).
  rewrite Hdep, nonzero_any_axes. reflexivity.
Qed.

(** An adapter built with [is_train = False] and [skip_blank = True] still
    removes the blank slices 1 and 3 of the sample volumes. *)
Lemma is_train_has_no_effect_witness :
  exists label' img',
    @getitem toy_backend toy_loader 0 toy_world =
      @augment toy_backend toy_loader img' label' toy_world /\
    depth_slices img' =
      [ [ [10; 20]; [30; 40] ]; [ [12; 22]; [32; 42] ];
        [ [14; 24]; [34; 44] ] ]%float.
Proof.
  destruct (proj2 (proj2 (proj2 (proj2 (proj2 (proj2
              (@is_train_has_no_effect toy_backend "images" "labels"
                 [ "scan_1.nii"%string ] [ "scan_1.nii"%string ]
                 (PyBool false) None None (PyBool true)))))))
              0 toy_world "scan_1.nii"%string "scan_1.nii"%string
              toy_image toy_label
              eq_refl eq_refl eq_refl eq_refl eq_refl eq_refl)
    as (label' & img' & _ & Hget & _ & Himg & _).
  exists label', img'. split; [exact Hget|].
  rewrite Himg. reflexivity.
Defined.

(** Lines 55-66 with the two chains of cross_validation.py, computed. *)
Lemma augment_train_chains `{Backend}
    (hounsfield_clip normalize : Data -> result Data)
    (root seg : string) (fs ls : list string) (it sb : PyVal)
    (img label : ndarray) (w : World) :
  let self :=
    init root seg fs ls it
         (Some (train_transforms hounsfield_clip normalize))
         (Some train_target_transforms) sb in
  let seed := fst (np_random_randint (np_rng w) 2147483647) in
  let p := fst (seeded_draw seed) in
  let w' :=
    {| np_rng := snd (np_random_randint (np_rng w) 2147483647);
       py_rng := fst (snd (seeded_draw seed));
       torch_rng := snd (snd (seeded_draw seed));
       affine_calls :=
         affine_calls w ++ [ (p, (-1024)%float); (p, 0%float) ] |} in
  augment self img label w =
  (clipped <- hounsfield_clip
                (Ten (affine (to_tensor img) p (-1024)%float)) ;;
   normalized <- normalize clipped ;;
   Ok ((normalized, Ten (affine (to_tensor label) p 0%float)), w')).
Proof.
  cbv zeta. unfold augment, init. cbn [transforms target_transforms].
  destruct (np_random_randint (np_rng w) 2147483647) as [seed np'].
  cbn [fst snd]. unfold seeded_draw.
  unfold apply_optional, train_transforms, train_target_transforms.
  cbn [compose apply_transform bind fst snd reseed py_rng torch_rng np_rng
       affine_calls].
  destruct (get_params _ _ _) as [p [py th]].
  cbn [bind fst snd py_rng torch_rng np_rng affine_calls].
  destruct (hounsfield_clip _) as [clipped|e]; [|reflexivity].
  cbn [bind fst snd]. destruct (normalize clipped) as [normalized|e];
    [|reflexivity].
  cbn [bind fst snd compose apply_transform reseed py_rng torch_rng np_rng
       affine_calls].
  rewrite <- app_assoc. reflexivity.
Qed.


(** C5: with the two chains of cross_validation.py, [__getitem__] seeds the
    generators with one seed before the image chain and with the same seed
    again before the label chain; both [RandomAffine] steps then use the
    same angle and scale, those of the draw made from the freshly seeded
    state, and pass them to the warp with fill -1024 for the image and with
    fill 0 for the label. *)
Theorem paired_augmentation `{Backend}
    (hounsfield_clip normalize : Data -> result Data)
    (root seg : string) (fs ls : list string) (it sb : PyVal)
    (idx : Z) (w : World) (img_name label_name : string)
    (img0 label0 img label : ndarray) :
  let self :=
    init root seg fs ls it
         (Some (train_transforms hounsfield_clip normalize))
         (Some train_target_transforms) sb in
  let seed := fst (np_random_randint (np_rng w) 2147483647) in
  let p := fst (seeded_draw seed) in
  let w' :=
    {| np_rng := snd (np_random_randint (np_rng w) 2147483647);
       py_rng := fst (snd (seeded_draw seed));
       torch_rng := snd (snd (seeded_draw seed));
       affine_calls :=
         affine_calls w ++ [ (p, (-1024)%float); (p, 0%float) ] |} in
  py_list_get fs idx = Ok img_name ->
  py_list_get ls idx = Ok label_name ->
  nib_load_float32 root img_name = Ok img0 ->
  nib_load_float32 seg label_name = Ok label0 ->
  drop_blanks self label0 img0 = Ok (label, img) ->
  getitem self idx w =
  (clipped <- hounsfield_clip
                (Ten (affine (to_tensor img) p (-1024)%float)) ;;
   normalized <- normalize clipped ;;
   Ok ((normalized, Ten (affine (to_tensor label) p 0%float)), w')).
Proof.
  cbv zeta. intros Hin Hln Hi Hl Hdrop.
  pose proof (augment_train_chains hounsfield_clip normalize root seg fs ls
                it sb img label w) as Haug.
  cbv zeta in Haug. unfold getitem. unfold init in *.
  cbn [files lables root_dir seg_dir].
  rewrite Hin, Hln. cbn [bind]. rewrite Hi, Hl. cbn [bind].
  rewrite Hdrop. cbn [bind fst snd]. exact Haug.
Qed.

(** The sample adapter with the two chains: both warps are called with the
    same angle and scale. *)
Lemma paired_augmentation_witness :
  let p := {| angle := (-5)%float; translations := (0, 0);
              scale := 1%float; shear := (0%float, 0%float) |} in
  exists out w',
    @getitem toy_backend toy_train_loader 0 toy_world = Ok (out, w') /\
    @affine_calls toy_backend w' = [ (p, (-1024)%float); (p, 0%float) ].
Proof.
  cbv zeta. eexists _, _. split.
  - apply (@paired_augmentation toy_backend (fun x => Ok x) (fun x => Ok x)
             "images" "labels" [ "scan_1.nii"%string ]
             [ "scan_1.nii"%string ] (PyBool true) (PyBool false)
             0 toy_world "scan_1.nii" "scan_1.nii"
             toy_image toy_label toy_image toy_label);
      reflexivity.
  - reflexivity.
Defined.

(** * The call of line 162 *)

(** C2: [CustomDataLoader] has no attribute named [reset_counters], neither
    among the fields that [__init__] sets nor among its methods nor in its
    base class, so the call [train_dataset.reset_counters()] at the start of
    an epoch raises [AttributeError]. *)
Theorem reset_counters_raises :
  getattr "reset_counters" = Raise AttributeError /\
  epoch_reset_counters = Raise AttributeError /\
  mem_string "reset_counters" (instance_fields ++ class_methods ++
                               dataset_methods) = false.
Proof. repeat split. Qed.

(** * Properties of stacking, collation and splitting *)

Lemma torch_stack_stackable {A : Type} (same_shape : A -> A -> bool) ts :
  torch_stack same_shape ts =
  if stackable same_shape ts then Ok ts else Raise RuntimeError.
Proof. destruct ts; reflexivity. Qed.

Lemma length_unsqueeze_1 {A : Type} (t : list A) :
  List.length (unsqueeze_1 t) = List.length t.
Proof. apply length_map. Qed.

Lemma length_chain {A : Type} (vols : list (list A)) :
  List.length (chain vols) = total_depth vols.
Proof. apply length_concat. Qed.

(** C8, counterexample: a batch whose only volume has no slice, as the
    blank-slice filter leaves it for a label without any positive voxel, and
    the empty batch, are refused; so is a batch of two volumes whose slices
    differ in shape. *)
Lemma collate_refuses_some_batches :
  custom_collate same_shape_2d [ ([], []) ] = Raise RuntimeError /\
  custom_collate same_shape_2d [] = Raise RuntimeError /\
  custom_collate same_shape_2d
    [ ([ [ [1; 2] ] ], [ [ [0; 0] ] ]); ([ [ [3] ] ], [ [ [0] ] ]) ]%float =
  Raise RuntimeError.
Proof. repeat split. Qed.

(** C8, amended: for a batch of per-volume (image, label) pairs of slice
    stacks whose image slices taken together are at least one and all of one
    shape, and likewise its label slices, [custom_collate] returns the image
    slices of all volumes in batch order and, within a volume, in depth
    order, and the same for the label slices; each result has as many
    entries as the depths of the volumes add up to, and each entry has a
    leading dimension of size one. *)
Theorem collate_concatenates {A : Type} (same_shape : A -> A -> bool)
    (batch : list (list A * list A)) :
  stackable same_shape (chain (map fst batch)) = true ->
  stackable same_shape (chain (map snd batch)) = true ->
  exists data target,
    custom_collate same_shape batch = Ok (data, target) /\
    data = map (fun s => [s]) (List.concat (map fst batch)) /\
    target = map (fun s => [s]) (List.concat (map snd batch)) /\
    List.length data = total_depth (map fst batch) /\
    List.length target = total_depth (map snd batch) /\
    Forall (fun entry => List.length entry = 1%nat) data /\
    Forall (fun entry => List.length entry = 1%nat) target.
Proof.
  intros Hd Ht. eexists _, _. split.
  { unfold custom_collate. rewrite !torch_stack_stackable, Hd.
    cbn [bind]. rewrite Ht. reflexivity. }
  split; [reflexivity|]. split; [reflexivity|].
  split; [rewrite length_unsqueeze_1; apply length_chain|].
  split; [rewrite length_unsqueeze_1; apply length_chain|].
  split; apply Forall_forall; intros entry Hin;
    apply in_map_iff in Hin; destruct Hin as (s & <- & _); reflexivity.
Qed.

(** Two volumes of depths 2 and 1 collate into 3 entries. *)
Lemma collate_concatenates_witness :
  exists data target,
    custom_collate same_shape_2d
      [ ([ [ [1; 2] ]; [ [3; 4] ] ], [ [ [0; 0] ]; [ [0; 1] ] ]);
        ([ [ [5; 6] ] ], [ [ [1; 0] ] ]) ]%float = Ok (data, target) /\
    List.length data = 3%nat /\ List.length target = 3%nat.
Proof.
  destruct (collate_concatenates same_shape_2d
              [ ([ [ [1; 2] ]; [ [3; 4] ] ], [ [ [0; 0] ]; [ [0; 1] ] ]);
                ([ [ [5; 6] ] ], [ [ [1; 0] ] ]) ]%float)
    as (data & target & Hc & _ & _ & Hld & Hlt & _); try reflexivity.
  exists data, target. split; [exact Hc|]. split; [exact Hld|exact Hlt].
Defined.

Lemma section_sizes_singletons n :
  (0 < n)%nat -> section_sizes n n = map (fun _ => 1%nat) (seq 0 n).
Proof.
  intros Hn. unfold section_sizes. apply map_ext. intros j.
  rewrite Nat.div_same by lia. rewrite Nat.Div0.mod_same. reflexivity.
Qed.

Lemma split_sizes_singletons {A : Type} (l : list A) : forall js : list nat,
  List.length js = List.length l ->
  split_sizes (map (fun _ => 1%nat) js) l = map (fun x => [x]) l.
Proof.
  induction l as [|x l IH]; intros [|j js] Hlen; try discriminate;
    [reflexivity|].
  cbn [map split_sizes firstn skipn]. f_equal. apply IH.
  cbn in Hlen. lia.
Qed.

Lemma tensor_split_all {A : Type} (t : list A) :
  t <> [] ->
  tensor_split t (Z.of_nat (List.length t)) = Ok (map (fun x => [x]) t).
Proof.
  intros Hne. unfold tensor_split.
  assert (Hpos : (0 < List.length t)%nat).
  { destruct t; [contradiction|cbn; lia]. }
  destruct (Z.leb_spec (Z.of_nat (List.length t)) 0) as [Hle|_]; [lia|].
  rewrite Nat2Z.id, section_sizes_singletons by exact Hpos.
  rewrite split_sizes_singletons by (rewrite length_seq; reflexivity).
  reflexivity.
Qed.

Lemma fold_left_append {A B : Type} (f : A -> B) (l : list A) :
  forall acc, fold_left (fun out x => out ++ [f x]) l acc = acc ++ map f l.
Proof.
  induction l as [|x l IH]; intros acc; cbn [fold_left map].
  - rewrite app_nil_r. reflexivity.
  - rewrite IH, <- app_assoc. reflexivity.
Qed.

(** C7: the validation loop cuts a volume of at least one slice into its
    single slices, applies the network to each and stacks the outputs; when
    the stack is accepted (the outputs have one shape), entry [i] of the
    stacked output is the output for slice [i], so the depth order is kept.
    With a network that returns its input, the volume itself comes back, and
    slices labelled 0, 1, 2, ... come back in that order. *)
Theorem restack_keeps_depth_order {A O : Type} (same_shape : O -> O -> bool)
    (model : list A -> O) (image : list A) :
  image <> [] ->
  stackable same_shape (map (fun s => model [s]) image) = true ->
  tensor_split image (Z.of_nat (List.length image)) =
    Ok (map (fun s => [s]) image) /\
  predict_volume same_shape model image =
    Ok (map (fun s => model [s]) image) /\
  predict_volume (fun _ _ => true) (fun section => section) image =
    Ok (map (fun s => [s]) image) /\
  List.concat (map (fun s => [s]) image) = image /\
  predict_volume (fun _ _ => true) (fun section => section)
    (seq 0 (List.length image)) =
    Ok (map (fun s => [s]) (seq 0 (List.length image))).
Proof.
  intros Hne Hst.
  assert (Hgen : forall (B P : Type) (same : P -> P -> bool)
                        (net : list B -> P) (vol : list B),
             vol <> [] ->
             stackable same (map (fun s => net [s]) vol) = true ->
             predict_volume same net vol = Ok (map (fun s => net [s]) vol)).
  { intros B P same net vol Hvol Hsame. unfold predict_volume.
    rewrite tensor_split_all by exact Hvol. cbn [bind].
    rewrite fold_left_append. cbn [app]. rewrite map_map.
    rewrite torch_stack_stackable, Hsame. reflexivity. }
  assert (Hid : forall (B : Type) (vol : list B),
             vol <> [] ->
             stackable (fun _ _ : list B => true)
                       (map (fun s => [s]) vol) = true).
  { intros B [|x vol] Hvol; [contradiction|]. cbn.
    apply forallb_forall. reflexivity. }
  split; [apply tensor_split_all; exact Hne|].
  split; [apply Hgen; assumption|].
  split; [apply (Hgen A (list A)); [exact Hne|apply Hid; exact Hne]|].
  split.
  { clear. induction image as [|x l IH]; [reflexivity|].
    cbn. rewrite IH. reflexivity. }
  assert (Hseq : seq 0 (List.length image) <> []).
  { destruct image; [contradiction|discriminate]. }
  apply (Hgen nat (list nat)); [exact Hseq|apply Hid; exact Hseq].
Qed.

(** Four slices labelled 0 to 3 come back in that order. *)
Lemma restack_keeps_depth_order_witness :
  predict_volume (fun _ _ => true) (fun section : list nat => section)
    [0; 1; 2; 3]%nat = Ok [ [0]; [1]; [2]; [3] ]%nat.
Proof.
  apply (proj1 (proj2 (restack_keeps_depth_order
                         (fun _ _ => true)
                         (fun section : list nat => section)
                         [0; 1; 2; 3]%nat
                         ltac:(discriminate) ltac:(reflexivity)))).
Defined.

(** * Properties of the fold split *)

Lemma list_sum_section_sizes_from q r k : forall s,
  list_sum (map (fun j => (q + (if (j <? r)%nat then 1 else 0))%nat)
                (seq s k)) =
  (k * q + (Nat.min (s + k) r - Nat.min s r))%nat.
Proof.
  induction k as [|k IH]; intros s.
  - cbn. rewrite Nat.add_0_r. lia.
  - cbn [seq map].
    match goal with
    | |- list_sum (?x :: ?l) = _ =>
        change (list_sum (x :: l)) with (x + list_sum l)%nat
    end.
    rewrite IH. destruct (Nat.ltb_spec s r); lia.
Qed.

Lemma list_sum_section_sizes len n :
  (0 < n)%nat -> list_sum (section_sizes len n) = len.
Proof.
  intros Hn. unfold section_sizes. rewrite list_sum_section_sizes_from.
  pose proof (Nat.mod_upper_bound len n ltac:(lia)) as Hr.
  pose proof (Nat.div_mod_eq len n) as Hdm.
  rewrite Nat.min_r by lia. cbn [Nat.min]. lia.
Qed.

Lemma length_split_sizes {A : Type} (sizes : list nat) : forall l : list A,
  List.length (split_sizes sizes l) = List.length sizes.
Proof.
  induction sizes as [|s sizes IH]; intros l; [reflexivity|].
  cbn. rewrite IH. reflexivity.
Qed.

Lemma firstn_plus {A : Type} (a b : nat) : forall l : list A,
  firstn (a + b) l = firstn a l ++ firstn b (skipn a l).
Proof.
  induction a as [|a IH]; intros l; [reflexivity|].
  destruct l as [|x l]; cbn [Nat.add firstn skipn app].
  - rewrite firstn_nil. reflexivity.
  - rewrite IH. reflexivity.
Qed.

(** The sections, put end to end, are the part of the sequence that the
    sizes cover. *)
Lemma concat_split_sizes {A : Type} (sizes : list nat) : forall l : list A,
  List.concat (split_sizes sizes l) = firstn (list_sum sizes) l.
Proof.
  induction sizes as [|s sizes IH]; intros l; [reflexivity|].
  cbn [split_sizes List.concat].
  change (list_sum (s :: sizes)) with (s + list_sum sizes)%nat.
  rewrite IH, firstn_plus. reflexivity.
Qed.

Lemma test_mask_In section i :
  test_mask section i = true <-> In i section.
Proof.
  unfold test_mask. rewrite existsb_exists. split.
  - intros (x & Hin & Heq). apply Nat.eqb_eq in Heq. subst x. exact Hin.
  - intros Hin. exists i. split; [exact Hin|apply Nat.eqb_refl].
Qed.

(** Reading a duplicate-free section off [arange(n)] through its mask
    reorders it and nothing more. *)
Lemma masked_indices_permutation n section :
  NoDup section ->
  incl section (seq 0 n) ->
  Permutation (filter (test_mask section) (seq 0 n)) section.
Proof.
  intros Hnd Hincl. apply NoDup_Permutation.
  - apply NoDup_filter, seq_NoDup.
  - exact Hnd.
  - intros x. rewrite filter_In, test_mask_In. split.
    + intros [_ Hin]. exact Hin.
    + intros Hin. split; [apply Hincl; exact Hin|exact Hin].
Qed.

Lemma masked_sections_permutation n (sections : list (list nat)) :
  NoDup (List.concat sections) ->
  incl (List.concat sections) (seq 0 n) ->
  Permutation
    (List.concat
       (map (fun section => filter (test_mask section) (seq 0 n)) sections))
    (List.concat sections).
Proof.
  induction sections as [|section sections IH]; intros Hnd Hincl;
    [constructor|].
  cbn [map List.concat] in *. apply Permutation_app.
  - apply masked_indices_permutation.
    + apply NoDup_app_remove_r in Hnd. exact Hnd.
    + intros x Hx. apply Hincl, in_or_app. left. exact Hx.
  - apply IH.
    + apply NoDup_app_remove_l in Hnd. exact Hnd.
    + intros x Hx. apply Hincl, in_or_app. right. exact Hx.
Qed.

Lemma NoDup_app_disjoint {A : Type} (a b : list A) (y : A) :
  NoDup (a ++ b) -> In y a -> In y b -> False.
Proof.
  induction a as [|z a IH]; intros Hnd Hy Hb; [contradiction|].
  cbn [app] in Hnd. inversion Hnd as [|? ? Hnotin Hnd']; subst.
  destruct Hy as [->|Hy].
  - apply Hnotin, in_or_app. right. exact Hb.
  - apply IH; assumption.
Qed.

Lemma NoDup_concat_disjoint (subsets : list (list nat)) :
  NoDup (List.concat subsets) -> pairwise_disjoint subsets.
Proof.
  unfold pairwise_disjoint.
  induction subsets as [|s subsets IH]; intros Hnd i j x Hij Hi Hj.
  - destruct i; contradiction.
  - cbn [List.concat] in Hnd.
    assert (Hsep : forall y, In y s -> In y (List.concat subsets) -> False).
    { intros y. apply NoDup_app_disjoint. exact Hnd. }
    assert (Hnth : forall k y, In y (nth k subsets []) ->
                               In y (List.concat subsets)).
    { intros k y Hy. apply in_concat. exists (nth k subsets []).
      split; [|exact Hy].
      destruct (Nat.lt_ge_cases k (List.length subsets)) as [Hk|Hk].
      - apply nth_In. exact Hk.
      - rewrite nth_overflow in Hy by exact Hk. contradiction. }
    destruct i as [|i], j as [|j]; cbn [nth] in Hi, Hj.
    + contradiction.
    + apply (Hsep x Hi). apply (Hnth j). exact Hj.
    + apply (Hsep x Hj). apply (Hnth i). exact Hi.
    + apply NoDup_app_remove_l in Hnd.
      apply (IH Hnd i j x); [congruence|exact Hi|exact Hj].
Qed.

(** C9, counterexample: with two folds and a single file the split raises
    [ValueError] and yields no dev subset at all, so the file index 0 is in
    none. *)
Lemma split_refuses_too_few_files :
  dev_subsets 2 (fun indices => indices) [ "scan_1.nii"%string ] =
  Raise ValueError.
Proof. reflexivity. Qed.

(** C9, amended: for every fold count k of at least 2 and every list of at
    least k files, the split yields k dev subsets that are pairwise disjoint
    and whose members, taken together, are the file indices 0 .. n-1, each
    exactly once.  The shuffle of the seeded generator is taken to permute
    its argument. *)
Theorem dev_subsets_partition {F : Type} (k_folds : Z)
    (permute : list nat -> list nat) (files : list F) :
  2 <= k_folds ->
  k_folds <= Z.of_nat (List.length files) ->
  Permutation (permute (seq 0 (List.length files)))
              (seq 0 (List.length files)) ->
  exists devs,
    dev_subsets k_folds permute files = Ok devs /\
    List.length devs = Z.to_nat k_folds /\
    pairwise_disjoint devs /\
    Permutation (List.concat devs) (seq 0 (List.length files)) /\
    (forall i, In i (List.concat devs) <-> (i < List.length files)%nat) /\
    NoDup (List.concat devs).
Proof.
  intros Hk Hn Hperm.
  set (n := List.length files) in *.
  set (sections :=
         split_sizes (section_sizes n (Z.to_nat k_folds)) (permute (seq 0 n))).
  exists (map (fun section => filter (test_mask section) (seq 0 n)) sections).
  assert (Hcat : List.concat sections = permute (seq 0 n)).
  { unfold sections. rewrite concat_split_sizes.
    rewrite list_sum_section_sizes by lia.
    apply firstn_all2.
    rewrite (Permutation_length Hperm), length_seq. lia. }
  assert (Hall : Permutation
            (List.concat
               (map (fun section => filter (test_mask section) (seq 0 n))
                    sections))
            (seq 0 n)).
  { rewrite masked_sections_permutation.
    - rewrite Hcat. exact Hperm.
    - rewrite Hcat. apply (Permutation_NoDup (Permutation_sym Hperm)).
      apply seq_NoDup.
    - rewrite Hcat. intros x Hx. apply (Permutation_in x Hperm Hx). }
  assert (Hnodup : NoDup
            (List.concat
               (map (fun section => filter (test_mask section) (seq 0 n))
                    sections))).
  { apply (Permutation_NoDup (Permutation_sym Hall)), seq_NoDup. }
  split.
  { unfold dev_subsets, kfold.
    destruct (Z.leb_spec k_folds 1) as [Hle|_]; [lia|]. cbn [bind].
    unfold split. cbn [n_splits shuffle]. fold n.
    destruct (Z.ltb_spec (Z.of_nat n) k_folds) as [Hlt|_]; [lia|].
    cbn [bind]. fold sections. rewrite map_map. reflexivity. }
  split.
  { rewrite length_map. unfold sections.
    rewrite length_split_sizes. unfold section_sizes.
    rewrite length_map, length_seq. reflexivity. }
  split; [apply NoDup_concat_disjoint; exact Hnodup|].
  split; [exact Hall|]. split; [|exact Hnodup].
  intros i. split.
  - intros Hi. apply (Permutation_in i Hall) in Hi. apply in_seq in Hi. lia.
  - intros Hi. apply (Permutation_in i (Permutation_sym Hall)).
    apply in_seq. lia.
Qed.

(** Eight files in three folds, with a shuffle that reverses. *)
Lemma dev_subsets_partition_witness :
  exists devs,
    dev_subsets 3 (@rev nat)
      [ "a"; "b"; "c"; "d"; "e"; "f"; "g"; "h" ]%string = Ok devs /\
    List.length devs = 3%nat /\
    Permutation (List.concat devs) (seq 0 8).
Proof.
  destruct (dev_subsets_partition 3 (@rev nat)
              [ "a"; "b"; "c"; "d"; "e"; "f"; "g"; "h" ]%string)
    as (devs & Hd & Hl & _ & Hp & _).
  - lia.
  - cbn. lia.
  - apply Permutation_sym, Permutation_rev.
  - exists devs. split; [exact Hd|]. split; [exact Hl|exact Hp].
Defined.

(** * The summary lines *)

(** The template of the per-fold summary is well formed for its two
    arguments. *)
Lemma fold_summary_formats : format_raises fold_template 2 = Some (Ok tt).
Proof. reflexivity. Qed.

(** The template of the final summary ends its second field with a closing
    brace too many: formatting it raises [ValueError], after the mean and the
    standard deviation have been computed and before anything is printed. *)
Lemma final_summary_raises :
  format_raises summary_template 2 = Some (Raise ValueError).
Proof. reflexivity. Qed.

(** * Order facts about binary64 comparison *)

Lemma is_nan_Prim2SF x :
  PrimFloat.is_nan x = true -> Prim2SF x = S754_nan.
Proof. intros H. unfold Prim2SF. rewrite H. reflexivity. Qed.

Lemma not_nan_Prim2SF x :
  PrimFloat.is_nan x = false -> Prim2SF x <> S754_nan.
Proof.
  intros H. unfold Prim2SF. rewrite H.
  destruct (PrimFloat.is_zero x); [discriminate|].
  destruct (PrimFloat.is_infinity x); [discriminate|].
  destruct (Z.frexp x) as [r e].
  destruct (shr_fexp _ _ _ _ _) as [shr e'].
  destruct (shr_m shr); discriminate.
Qed.

Lemma SFleb_trans a b c :
  SFleb a b = true -> SFleb b c = true -> SFleb a c = true.
Proof.
  unfold SFleb, SFcompare.
  destruct a as [sa|sa| |sa ma ea], b as [sb|sb| |sb mb eb],
           c as [sc|sc| |sc mc ec];
    try destruct sa; try destruct sb; try destruct sc;
    try reflexivity; try discriminate.
  all: rewrite ?Pos.compare_cont_spec; cbn [Pos.switch_Eq].
  all: destruct (Z.compare_spec ea eb), (Z.compare_spec eb ec),
                (Z.compare_spec ea ec);
         try reflexivity; try discriminate; try lia.
  all: destruct (Pos.compare_spec ma mb), (Pos.compare_spec mb mc),
                (Pos.compare_spec ma mc);
         cbn; try reflexivity; try discriminate; try lia.
Qed.

Lemma SFleb_total a b :
  a <> S754_nan -> b <> S754_nan -> SFleb a b = false -> SFleb b a = true.
Proof.
  unfold SFleb, SFcompare.
  destruct a as [sa|sa| |sa ma ea], b as [sb|sb| |sb mb eb];
    try destruct sa; try destruct sb;
    try reflexivity; try discriminate; try congruence.
  all: rewrite ?Pos.compare_cont_spec; cbn [Pos.switch_Eq].
  all: destruct (Z.compare_spec ea eb), (Z.compare_spec eb ea);
         try reflexivity; try discriminate; try lia.
  all: destruct (Pos.compare_spec ma mb), (Pos.compare_spec mb ma);
         cbn; try reflexivity; try discriminate; try lia.
Qed.

Lemma leb_trans a b c :
  PrimFloat.leb a b = true -> PrimFloat.leb b c = true ->
  PrimFloat.leb a c = true.
Proof. rewrite !leb_spec. apply SFleb_trans. Qed.

Lemma leb_total a b :
  PrimFloat.is_nan a = false -> PrimFloat.is_nan b = false ->
  PrimFloat.leb a b = false -> PrimFloat.leb b a = true.
Proof.
  intros Ha Hb. rewrite !leb_spec.
  apply SFleb_total; apply not_nan_Prim2SF; assumption.
Qed.

Lemma leb_nan_l a b : PrimFloat.is_nan a = true -> PrimFloat.leb a b = false.
Proof.
  intros Ha. rewrite leb_spec, (is_nan_Prim2SF a Ha). reflexivity.
Qed.

Lemma leb_nan_r a b : PrimFloat.is_nan b = true -> PrimFloat.leb a b = false.
Proof.
  intros Hb. rewrite leb_spec, (is_nan_Prim2SF b Hb).
  destruct (Prim2SF a); reflexivity.
Qed.

Lemma leb_not_nan a b :
  PrimFloat.leb a b = true ->
  PrimFloat.is_nan a = false /\ PrimFloat.is_nan b = false.
Proof.
  intros H. split.
  - destruct (PrimFloat.is_nan a) eqn:Ha; [|reflexivity].
    rewrite (leb_nan_l a b Ha) in H. discriminate.
  - destruct (PrimFloat.is_nan b) eqn:Hb; [|reflexivity].
    rewrite (leb_nan_r a b Hb) in H. discriminate.
Qed.

Lemma leb_refl a : PrimFloat.is_nan a = false -> PrimFloat.leb a a = true.
Proof.
  intros Ha. pose proof (leb_total a a Ha Ha) as Htot.
  destruct (PrimFloat.leb a a); [reflexivity|]. apply Htot. reflexivity.
Qed.

(** * Further properties of the epoch loop *)

Lemma epoch_update_cases fold epoch m st :
  epoch_update fold epoch m st =
  if improved m st then
    {| valid_loss_min := total_valid_loss_last m;
       valid_iou_min := total_valid_3d_score_last m;
       epochs_no_improve := 0;
       saved := saved st ++ [save_call fold epoch (total_valid_loss_last m)] |}
  else
    {| valid_loss_min := valid_loss_min st;
       valid_iou_min := valid_iou_min st;
       epochs_no_improve := epochs_no_improve st + 1;
       saved := saved st |}.
Proof. reflexivity. Qed.

Lemma epoch_loop_saved mx fold outcome epochs : forall st,
  saved (fst (epoch_loop mx fold outcome epochs st)) =
  saved st ++
  map (fun e => save_call fold e (total_valid_loss_last (outcome e)))
      (improved_epochs (snd (epoch_loop mx fold outcome epochs st))).
Proof.
  unfold improved_epochs.
  induction epochs as [|epoch rest IH]; intros st.
  - cbn. rewrite app_nil_r. reflexivity.
  - rewrite epoch_loop_cons. cbv zeta.
    set (st' := epoch_update fold epoch (outcome epoch) st).
    assert (Hst' : saved st' =
              saved st ++
              if improved (outcome epoch) st
              then [save_call fold epoch
                      (total_valid_loss_last (outcome epoch))]
              else []).
    { unfold st'. rewrite epoch_update_cases.
      destruct (improved (outcome epoch) st); cbn [saved];
        [reflexivity|rewrite app_nil_r; reflexivity]. }
    destruct (epochs_no_improve st' >? mx).
    + cbn [fst snd filter tr_improved]. rewrite Hst'.
      destruct (improved (outcome epoch) st); reflexivity.
    + cbn [fst snd filter tr_improved]. rewrite IH, Hst'.
      destruct (improved (outcome epoch) st); cbn [map tr_epoch app];
        rewrite <- app_assoc; reflexivity.
Qed.

(** X1: the [save_ckp] calls of a fold are one call per epoch that passed
    the test of line 244, in epoch order and none besides; each call marks
    its checkpoint as best, carries fold + 1, epoch + 1 and the loss of its
    epoch, and names the files of that fold and epoch. *)
Theorem one_checkpoint_per_improved_epoch cfg fold ckp outcome :
  let run := run_fold cfg fold ckp outcome in
  saved (fst run) =
    map (fun e => save_call fold e (total_valid_loss_last (outcome e)))
        (improved_epochs (snd run)) /\
  List.length (saved (fst run)) =
    List.length (filter tr_improved (snd run)) /\
  Forall (fun c => sc_is_best c = true /\
                   ck_fold (sc_state c) = fold + 1 /\
                   sc_best_model_path c = BestModelFile (fold + 1) /\
                   sc_checkpoint_path c =
                     EpochFile (fold + 1) (ck_epoch (sc_state c)))
         (saved (fst run)).
Proof.
  cbv zeta. unfold run_fold.
  rewrite epoch_loop_saved. cbn [fold_init saved app].
  split; [reflexivity|]. split.
  - unfold improved_epochs. rewrite !length_map. reflexivity.
  - apply Forall_forall. intros c Hc. apply in_map_iff in Hc.
    destruct Hc as (e & <- & _). repeat split.
Qed.

Lemma last_cons_default {A : Type} (l : list A) : forall x d,
  last (x :: l) d = last l x.
Proof.
  induction l as [|y l IH]; intros x d; [reflexivity|].
  change (last (x :: y :: l) d) with (last (y :: l) d).
  rewrite !IH. reflexivity.
Qed.

Lemma epoch_loop_valid_loss_min mx fold outcome epochs : forall st,
  valid_loss_min (fst (epoch_loop mx fold outcome epochs st)) =
  last (map (fun e => total_valid_loss_last (outcome e))
            (improved_epochs (snd (epoch_loop mx fold outcome epochs st))))
       (valid_loss_min st).
Proof.
  unfold improved_epochs.
  induction epochs as [|epoch rest IH]; intros st; [reflexivity|].
  rewrite epoch_loop_cons. cbv zeta.
  set (st' := epoch_update fold epoch (outcome epoch) st).
  assert (Hst' : valid_loss_min st' =
            if improved (outcome epoch) st
            then total_valid_loss_last (outcome epoch)
            else valid_loss_min st).
  { unfold st'. rewrite epoch_update_cases.
    destruct (improved (outcome epoch) st); reflexivity. }
  destruct (epochs_no_improve st' >? mx).
  - cbn [fst snd filter tr_improved]. rewrite Hst'.
    destruct (improved (outcome epoch) st); reflexivity.
  - cbn [fst snd filter tr_improved]. rewrite IH, Hst'.
    destruct (improved (outcome epoch) st); cbn [map tr_epoch];
      [|reflexivity].
    rewrite last_cons_default. reflexivity.
Qed.

(** X2: at the end of a fold [valid_loss_min] is the loss stored in the
    checkpoint saved last in the fold, and the value that [load_ckp]
    returned when the fold saved none. *)
Theorem best_loss_is_last_checkpoint cfg fold ckp outcome :
  let run := run_fold cfg fold ckp outcome in
  valid_loss_min (fst run) =
  last (map (fun c => ck_valid_loss_min (sc_state c)) (saved (fst run)))
       (loaded_valid_loss_min ckp).
Proof.
  cbv zeta. unfold run_fold.
  rewrite epoch_loop_saved, epoch_loop_valid_loss_min.
  cbn [fold_init saved app valid_loss_min]. rewrite map_map. reflexivity.
Qed.

Lemma leading_misses_app l : forall m,
  leading_misses (l ++ m) =
  if forallb (fun t => negb (tr_improved t)) l
  then (List.length l + leading_misses m)%nat
  else leading_misses l.
Proof.
  induction l as [|t l IH]; intros m; [reflexivity|].
  cbn [app leading_misses forallb List.length]. rewrite IH.
  destruct (tr_improved t); [reflexivity|]. cbn [negb andb].
  destruct (forallb _ l); reflexivity.
Qed.

Lemma leading_misses_all l :
  forallb (fun t => negb (tr_improved t)) l = true ->
  leading_misses l = List.length l.
Proof.
  induction l as [|t l IH]; [reflexivity|].
  cbn [forallb leading_misses List.length].
  destruct (tr_improved t); [discriminate|]. cbn [negb andb].
  intros H. rewrite (IH H). reflexivity.
Qed.

Lemma forallb_rev {A : Type} (p : A -> bool) (l : list A) :
  forallb p (rev l) = forallb p l.
Proof.
  induction l as [|x l IH]; [reflexivity|].
  cbn [rev forallb]. rewrite forallb_app, IH. cbn.
  rewrite andb_true_r. apply andb_comm.
Qed.

Lemma epoch_loop_counter mx fold outcome epochs : forall st,
  let ts := snd (epoch_loop mx fold outcome epochs st) in
  epochs_no_improve (fst (epoch_loop mx fold outcome epochs st)) =
  Z.of_nat (leading_misses (rev ts)) +
  (if forallb (fun t => negb (tr_improved t)) ts
   then epochs_no_improve st else 0).
Proof.
  induction epochs as [|epoch rest IH]; intros st; [reflexivity|].
  cbv zeta. rewrite epoch_loop_cons. cbv zeta.
  set (st' := epoch_update fold epoch (outcome epoch) st).
  set (t := {| tr_epoch := epoch; tr_improved := improved _ _ |}).
  assert (Hst' : epochs_no_improve st' =
            if improved (outcome epoch) st then 0
            else epochs_no_improve st + 1).
  { unfold st'. rewrite epoch_update_cases.
    destruct (improved (outcome epoch) st); reflexivity. }
  destruct (epochs_no_improve st' >? mx).
  - cbn [fst snd rev app leading_misses forallb]. unfold t.
    cbn [tr_improved]. rewrite Hst'.
    destruct (improved (outcome epoch) st); cbn [negb andb]; lia.
  - specialize (IH st'). cbv zeta in IH.
    cbn [fst snd rev forallb]. rewrite IH, leading_misses_app, forallb_rev.
    rewrite Hst'. unfold t. cbn [tr_improved leading_misses].
    rewrite length_rev.
    destruct (forallb _ (snd (epoch_loop mx fold outcome rest st')))
      eqn:Hallmiss.
    + rewrite leading_misses_all
        by (rewrite forallb_rev; exact Hallmiss).
      rewrite length_rev.
      destruct (improved (outcome epoch) st); cbn [negb andb]; lia.
    + destruct (improved (outcome epoch) st); cbn [negb andb]; lia.
Qed.

Lemma epoch_loop_counter_bound mx fold outcome epochs : forall st,
  0 <= mx ->
  epochs_no_improve st <= mx ->
  epochs_no_improve (fst (epoch_loop mx fold outcome epochs st)) <= mx + 1.
Proof.
  induction epochs as [|epoch rest IH]; intros st Hmx Hst; [cbn; lia|].
  rewrite epoch_loop_cons. cbv zeta.
  set (st' := epoch_update fold epoch (outcome epoch) st).
  assert (Hst' : epochs_no_improve st' <= epochs_no_improve st + 1 \/
                 epochs_no_improve st' = 0).
  { unfold st'. rewrite epoch_update_cases.
    destruct (improved (outcome epoch) st); cbn; lia. }
  destruct (Z.gtb_spec (epochs_no_improve st') mx) as [Hgt|Hle].
  - cbn [fst]. lia.
  - cbn [fst]. apply IH; lia.
Qed.

(** X3: when a fold ends, [epochs_no_improve] is the number of epochs that
    ran after the last improvement of the fold, all epochs that ran when none
    improved; for a maximum that is not negative it lies between 0 and the
    maximum plus one. *)
Theorem counter_counts_epochs_since_improvement cfg fold ckp outcome :
  let run := run_fold cfg fold ckp outcome in
  epochs_no_improve (fst run) = Z.of_nat (leading_misses (rev (snd run))) /\
  (0 <= max_epochs_no_improve cfg ->
   0 <= epochs_no_improve (fst run) <= max_epochs_no_improve cfg + 1).
Proof.
  cbv zeta. unfold run_fold.
  pose proof (epoch_loop_counter (max_epochs_no_improve cfg) fold outcome
                (py_range (epoch_start ckp)
                          (epoch_start ckp + num_epochs cfg))
                (fold_init ckp)) as Hc.
  cbv zeta in Hc. cbn [fold_init epochs_no_improve] in Hc.
  assert (Heq : epochs_no_improve
                  (fst (epoch_loop (max_epochs_no_improve cfg) fold outcome
                          (py_range (epoch_start ckp)
                                    (epoch_start ckp + num_epochs cfg))
                          (fold_init ckp))) =
                Z.of_nat
                  (leading_misses
                     (rev (snd (epoch_loop (max_epochs_no_improve cfg) fold
                                  outcome
                                  (py_range (epoch_start ckp)
                                     (epoch_start ckp + num_epochs cfg))
                                  (fold_init ckp)))))).
  { rewrite Hc. destruct (forallb _ _); lia. }
  split; [exact Heq|].
  intros Hmax. split; [rewrite Heq; lia|].
  apply epoch_loop_counter_bound; [exact Hmax|cbn; exact Hmax].
Qed.

(** A fold of ten epochs with a patience of 2 whose loss improves once. *)
Lemma counter_counts_epochs_since_improvement_witness :
  0 <= epochs_no_improve
         (fst (run_fold {| num_epochs := 10; max_epochs_no_improve := 2 |} 0
                 fresh_ckp flat_after_first)) <= 3.
Proof.
  apply (proj2 (counter_counts_epochs_since_improvement
                  {| num_epochs := 10; max_epochs_no_improve := 2 |} 0
                  fresh_ckp flat_after_first)).
  cbn. lia.
Defined.

Lemma epoch_loop_no_improvement mx fold outcome epochs : forall st,
  (forall e, In e epochs ->
     PrimFloat.leb (total_valid_loss_last (outcome e)) (valid_loss_min st)
     = false) ->
  let n := Nat.min (List.length epochs)
                   (Z.to_nat (Z.max 1 (mx - epochs_no_improve st + 1))) in
  epoch_loop mx fold outcome epochs st =
  ({| valid_loss_min := valid_loss_min st;
      valid_iou_min := valid_iou_min st;
      epochs_no_improve := epochs_no_improve st + Z.of_nat n;
      saved := saved st |},
   map (fun e => {| tr_epoch := e; tr_improved := false |})
       (firstn n epochs)).
Proof.
  induction epochs as [|epoch rest IH]; intros st Hall; cbv zeta.
  - cbn. rewrite Z.add_0_r. destruct st; reflexivity.
  - assert (Hmiss : improved (outcome epoch) st = false).
    { apply Hall. left. reflexivity. }
    rewrite epoch_loop_cons. cbv zeta.
    rewrite epoch_update_not_improved by exact Hmiss. rewrite Hmiss.
    cbn [epochs_no_improve].
    destruct (Z.gtb_spec (epochs_no_improve st + 1) mx) as [Hgt|Hle].
    + replace (Z.to_nat (Z.max 1 (mx - epochs_no_improve st + 1)))
        with 1%nat by lia.
      cbn [List.length]. rewrite Nat.min_r by lia.
      cbn [firstn map]. reflexivity.
    + rewrite IH; cbn [epochs_no_improve valid_loss_min valid_iou_min saved];
        [|intros e He; apply Hall; right; exact He].
      cbn [fst snd List.length].
      replace (Z.to_nat (Z.max 1 (mx - epochs_no_improve st + 1)))
        with (S (Z.to_nat (Z.max 1 (mx - (epochs_no_improve st + 1) + 1))))
        by lia.
      rewrite <- Nat.succ_min_distr. cbn [firstn map].
      f_equal. f_equal. lia.
Qed.

Lemma map_const_repeat {A B : Type} (b : B) (l : list A) :
  map (fun _ => b) l = repeat b (List.length l).
Proof.
  induction l as [|x l IH]; [reflexivity|]. cbn. rewrite IH. reflexivity.
Qed.

Lemma run_fold_no_improvement cfg fold ckp outcome :
  (forall e,
     epoch_start ckp <= e < epoch_start ckp + num_epochs cfg ->
     PrimFloat.leb (total_valid_loss_last (outcome e))
                   (loaded_valid_loss_min ckp) = false) ->
  let n := Nat.min (Z.to_nat (num_epochs cfg))
                   (Z.to_nat (Z.max 1 (max_epochs_no_improve cfg + 1))) in
  run_fold cfg fold ckp outcome =
  ({| valid_loss_min := loaded_valid_loss_min ckp;
      valid_iou_min := infinity;
      epochs_no_improve := Z.of_nat n;
      saved := [] |},
   map (fun e => {| tr_epoch := e; tr_improved := false |})
       (firstn n (py_range (epoch_start ckp)
                           (epoch_start ckp + num_epochs cfg)))).
Proof.
  intros Hall. cbv zeta.
  assert (Hlen : List.length (py_range (epoch_start ckp)
                                (epoch_start ckp + num_epochs cfg)) =
                 Z.to_nat (num_epochs cfg)).
  { unfold py_range. rewrite length_map, length_seq. f_equal. lia. }
  unfold run_fold. rewrite epoch_loop_no_improvement.
  - cbn [fold_init epochs_no_improve valid_loss_min valid_iou_min saved].
    rewrite Hlen, Z.sub_0_r, Z.add_0_l. reflexivity.
  - intros e He. cbn [fold_init valid_loss_min]. apply Hall.
    unfold py_range in He. apply in_map_iff in He.
    destruct He as (i & <- & Hi). apply in_seq in Hi. lia.
Qed.

(** X4: a fold in which no epoch reaches the loss that [load_ckp] returned
    (a resumed fold that does not get better) runs the maximum plus one
    epochs, one epoch when the maximum is negative, or its whole budget if
    that is shorter; it saves no checkpoint, keeps the loaded loss and
    records infinity as the 3D score of the fold. *)
Theorem fold_without_improvement cfg fold ckp outcome :
  (forall e,
     epoch_start ckp <= e < epoch_start ckp + num_epochs cfg ->
     PrimFloat.leb (total_valid_loss_last (outcome e))
                   (loaded_valid_loss_min ckp) = false) ->
  let run := run_fold cfg fold ckp outcome in
  List.length (snd run) =
    Nat.min (Z.to_nat (num_epochs cfg))
            (Z.to_nat (Z.max 1 (max_epochs_no_improve cfg + 1))) /\
  epochs_run (snd run) =
    firstn (List.length (snd run))
           (py_range (epoch_start ckp) (epoch_start ckp + num_epochs cfg)) /\
  improvement_flags (snd run) = repeat false (List.length (snd run)) /\
  saved (fst run) = [] /\
  valid_loss_min (fst run) = loaded_valid_loss_min ckp /\
  valid_iou_min (fst run) = infinity /\
  min_ious cfg [ (ckp, outcome) ] = [ infinity ].
Proof.
  intros Hall. cbv zeta.
  assert (Hlen : List.length (py_range (epoch_start ckp)
                                (epoch_start ckp + num_epochs cfg)) =
                 Z.to_nat (num_epochs cfg)).
  { unfold py_range. rewrite length_map, length_seq. f_equal. lia. }
  unfold min_ious. cbn [List.length seq combine map].
  rewrite !(run_fold_no_improvement cfg _ ckp outcome Hall).
  cbn [fst snd valid_loss_min valid_iou_min saved].
  set (n := Nat.min _ _).
  assert (Hf : List.length (firstn n (py_range (epoch_start ckp)
                              (epoch_start ckp + num_epochs cfg))) = n).
  { rewrite length_firstn, Hlen. unfold n. lia. }
  unfold improvement_flags, epochs_run. rewrite !length_map, !map_map.
  cbn [tr_improved tr_epoch]. rewrite map_const_repeat, map_id, Hf.
  repeat split.
Qed.

(** A fold resumed from a checkpoint with loss 0.1 whose epochs all have
    loss 0.5 or more stops after three epochs. *)
Lemma fold_without_improvement_witness :
  List.length
    (snd (run_fold {| num_epochs := 10; max_epochs_no_improve := 2 |} 0
            {| epoch_start := 0; loaded_valid_loss_min := 0.1 |}
            flat_after_first)) = 3%nat.
Proof.
  apply (fold_without_improvement
           {| num_epochs := 10; max_epochs_no_improve := 2 |} 0
           {| epoch_start := 0; loaded_valid_loss_min := 0.1 |}
           flat_after_first).
  intros e _. unfold flat_after_first.
  destruct (e =? 0); reflexivity.
Defined.

(** X5: an epoch whose mean validation loss is NaN never passes the test of
    line 244, and once [valid_loss_min] is NaN no epoch passes it: in both
    cases the epoch saves nothing and adds one to the counter. *)
Theorem nan_loss_never_improves fold epoch m st :
  PrimFloat.is_nan (total_valid_loss_last m) = true \/
  PrimFloat.is_nan (valid_loss_min st) = true ->
  improved m st = false /\
  epoch_update fold epoch m st =
  {| valid_loss_min := valid_loss_min st;
     valid_iou_min := valid_iou_min st;
     epochs_no_improve := epochs_no_improve st + 1;
     saved := saved st |}.
Proof.
  intros Hnan.
  assert (Hmiss : improved m st = false).
  { unfold improved. destruct Hnan as [H|H];
      [apply leb_nan_l|apply leb_nan_r]; exact H. }
  split; [exact Hmiss|apply epoch_update_not_improved; exact Hmiss].
Qed.

(** An epoch with a NaN loss right after a fresh start. *)
Lemma nan_loss_never_improves_witness :
  improved {| total_valid_loss_last := nan;
              total_valid_3d_score_last := 0.5 |}
           (fold_init fresh_ckp) = false.
Proof.
  apply (nan_loss_never_improves 0 0
           {| total_valid_loss_last := nan;
              total_valid_3d_score_last := 0.5 |}
           (fold_init fresh_ckp)).
  left. reflexivity.
Defined.

Lemma epoch_loop_lower_bound mx fold outcome epochs : forall st,
  PrimFloat.is_nan (valid_loss_min st) = false ->
  let final := fst (epoch_loop mx fold outcome epochs st) in
  PrimFloat.leb (valid_loss_min final) (valid_loss_min st) = true /\
  (forall t, In t (snd (epoch_loop mx fold outcome epochs st)) ->
     PrimFloat.is_nan (total_valid_loss_last (outcome (tr_epoch t)))
       = false ->
     PrimFloat.leb (valid_loss_min final)
                   (total_valid_loss_last (outcome (tr_epoch t))) = true).
Proof.
  induction epochs as [|epoch rest IH]; intros st Hst; cbv zeta.
  - cbn. split; [apply leb_refl; exact Hst|intros t []].
  - rewrite epoch_loop_cons. cbv zeta.
    set (st' := epoch_update fold epoch (outcome epoch) st).
    set (l := total_valid_loss_last (outcome epoch)).
    assert (Hst' : PrimFloat.is_nan (valid_loss_min st') = false /\
                   PrimFloat.leb (valid_loss_min st') (valid_loss_min st)
                     = true /\
                   (PrimFloat.is_nan l = false ->
                    PrimFloat.leb (valid_loss_min st') l = true)).
    { unfold st'. rewrite epoch_update_cases. fold l.
      destruct (improved (outcome epoch) st) eqn:Himp;
        cbn [valid_loss_min]; unfold improved in Himp; fold l in Himp.
      - destruct (leb_not_nan _ _ Himp) as [Hl _].
        split; [exact Hl|]. split; [exact Himp|].
        intros _. apply leb_refl. exact Hl.
      - split; [exact Hst|]. split; [apply leb_refl; exact Hst|].
        intros Hl. apply leb_total; assumption. }
    destruct Hst' as (Hnan' & Hle' & Hl').
    destruct (epochs_no_improve st' >? mx).
    + cbn [fst snd]. split; [exact Hle'|].
      intros t [<-|[]] Ht. cbn [tr_epoch] in *. apply Hl'. exact Ht.
    + destruct (IH st' Hnan') as [Hfin Hall]. cbn [fst snd].
      split; [eapply leb_trans; [exact Hfin|exact Hle']|].
      intros t [<-|Hin] Ht.
      * cbn [tr_epoch] in *. eapply leb_trans; [exact Hfin|].
        apply Hl'. exact Ht.
      * apply Hall; assumption.
Qed.

(** X6: when the loss that [load_ckp] returned is not NaN, the
    [valid_loss_min] a fold ends with is less than or equal to that loss and
    to the mean validation loss of every epoch of the fold that is not NaN:
    it is the least loss the fold has seen. *)
Theorem best_loss_is_least_loss cfg fold ckp outcome :
  PrimFloat.is_nan (loaded_valid_loss_min ckp) = false ->
  let run := run_fold cfg fold ckp outcome in
  PrimFloat.leb (valid_loss_min (fst run)) (loaded_valid_loss_min ckp)
    = true /\
  (forall e, In e (epochs_run (snd run)) ->
     PrimFloat.is_nan (total_valid_loss_last (outcome e)) = false ->
     PrimFloat.leb (valid_loss_min (fst run))
                   (total_valid_loss_last (outcome e)) = true).
Proof.
  intros Hnan. cbv zeta. unfold run_fold.
  destruct (epoch_loop_lower_bound (max_epochs_no_improve cfg) fold outcome
              (py_range (epoch_start ckp) (epoch_start ckp + num_epochs cfg))
              (fold_init ckp) Hnan) as [Hle Hall].
  split; [exact Hle|].
  intros e He Hne. unfold epochs_run in He. apply in_map_iff in He.
  destruct He as (t & <- & Hin). apply Hall; assumption.
Qed.

(** The two-epoch fold ends with the loss 0.4, which is below 0.5. *)
Lemma best_loss_is_least_loss_witness :
  PrimFloat.leb
    (valid_loss_min (fst (run_fold two_epochs_cfg 0 fresh_ckp two_epochs)))
    (total_valid_loss_last (two_epochs 0)) = true.
Proof.
  apply (proj2 (best_loss_is_least_loss two_epochs_cfg 0 fresh_ckp
                  two_epochs ltac:(reflexivity)) 0).
  - left. reflexivity.
  - reflexivity.
Defined.

(** * Further properties of the adapters *)

Lemma py_list_get_out_of_range {A : Type} (l : list A) idx :
  idx < - Z.of_nat (List.length l) \/ Z.of_nat (List.length l) <= idx ->
  py_list_get l idx = Raise IndexError.
Proof.
  intros Hidx. unfold py_list_get.
  destruct (Z.ltb_spec idx 0).
  - destruct (Z.ltb_spec (idx + Z.of_nat (List.length l)) 0); [reflexivity|].
    lia.
  - destruct (Z.ltb_spec idx 0); [lia|].
    destruct (Z.leb_spec (Z.of_nat (List.length l)) idx); [reflexivity|lia].
Qed.

Lemma py_list_get_in_range {A : Type} (l : list A) idx (d : A) :
  0 <= idx < Z.of_nat (List.length l) ->
  py_list_get l idx = Ok (nth (Z.to_nat idx) l d).
Proof.
  intros Hidx. unfold py_list_get.
  destruct (Z.ltb_spec idx 0); [lia|].
  destruct (Z.ltb_spec idx 0); [lia|].
  destruct (Z.leb_spec (Z.of_nat (List.length l)) idx); [lia|].
  cbn [orb].
  destruct (nth_error l (Z.to_nat idx)) as [x|] eqn:Hnth.
  - rewrite (nth_error_nth _ _ d Hnth). reflexivity.
  - apply nth_error_None in Hnth. lia.
Qed.

Lemma py_list_get_negative {A : Type} (l : list A) idx :
  - Z.of_nat (List.length l) <= idx < 0 ->
  py_list_get l idx = py_list_get l (idx + Z.of_nat (List.length l)).
Proof.
  intros Hidx. unfold py_list_get. cbv zeta.
  assert (E1 : (idx <? 0) = true) by (apply Z.ltb_lt; lia).
  assert (E2 : (idx + Z.of_nat (List.length l) <? 0) = false)
    by (apply Z.ltb_ge; lia).
  rewrite E1, !E2. reflexivity.
Qed.

(** X7: [__getitem__] refuses an index outside -len .. len - 1 with
    [IndexError] before any file is read; an index from -len to -1 names the
    same example as that index plus len, when there are as many label names
    as file names. *)
Theorem getitem_index_bounds `{Backend} (self : CustomDataLoader)
    (idx : Z) (w : World) :
  (idx < - len self \/ len self <= idx ->
   getitem self idx w = Raise IndexError) /\
  (List.length (lables self) = List.length (files self) ->
   - len self <= idx < 0 ->
   getitem self idx w = getitem self (idx + len self) w).
Proof.
  unfold len. split.
  - intros Hidx. unfold getitem.
    rewrite py_list_get_out_of_range by exact Hidx. reflexivity.
  - intros Hlen Hidx. unfold getitem.
    rewrite (py_list_get_negative (files self)) by exact Hidx.
    rewrite (py_list_get_negative (lables self)) by (rewrite Hlen; exact Hidx).
    rewrite Hlen. reflexivity.
Qed.

(** Index 1 is out of range for an adapter over one file; index -1 is its
    only example. *)
Lemma getitem_index_bounds_witness :
  @getitem toy_backend toy_loader 1 toy_world = Raise IndexError /\
  @getitem toy_backend toy_loader (-1) toy_world =
  @getitem toy_backend toy_loader 0 toy_world.
Proof.
  split.
  - apply (proj1 (@getitem_index_bounds toy_backend toy_loader 1 toy_world)).
    right. cbn. lia.
  - apply (proj2 (@getitem_index_bounds toy_backend toy_loader (-1)
                    toy_world)).
    + reflexivity.
    + cbn. lia.
Defined.

(** X8: when the test of line 50 holds and the image and the label of an
    example differ in depth, [__getitem__] raises [IndexError]: the mask
    computed from the label does not fit the image. *)
Theorem getitem_depth_mismatch `{Backend} (self : CustomDataLoader)
    (idx : Z) (w : World) (img_name label_name : string)
    (img label : ndarray) :
  filters_blanks self = true ->
  py_list_get (files self) idx = Ok img_name ->
  py_list_get (lables self) idx = Ok label_name ->
  nib_load_float32 (root_dir self) img_name = Ok img ->
  nib_load_float32 (seg_dir self) label_name = Ok label ->
  depth img <> depth label ->
  getitem self idx w = Raise IndexError.
Proof.
  intros Hf Hin Hln Hi Hl Hd. unfold getitem.
  rewrite Hin, Hln. cbn [bind]. rewrite Hi, Hl. cbn [bind].
  unfold drop_blanks. rewrite Hf. unfold index_axis2.
  assert (Hlen : List.length (any_axes_0_1 label) = depth label).
  { unfold any_axes_0_1. rewrite length_map, length_seq. reflexivity. }
  rewrite Hlen, Nat.eqb_refl. cbn [bind].
  destruct (Nat.eqb_spec (depth label) (depth img)) as [Heq|_];
    [congruence|reflexivity].
Qed.

(** An image of depth 5 with a label of depth 4. *)
Lemma getitem_depth_mismatch_witness :
  @getitem toy_backend_short toy_loader_short 0 toy_world_short =
  Raise IndexError.
Proof.
  apply (@getitem_depth_mismatch toy_backend_short toy_loader_short 0
           toy_world_short "scan_1.nii" "scan_1.nii"
           toy_image toy_short_label); try reflexivity.
  cbn. lia.
Defined.

Lemma labelled_depths_all label :
  Forall (fun s => all_zero s = false) (depth_slices label) ->
  labelled_depths label = seq 0 (depth label).
Proof.
  intros Hall. unfold labelled_depths, depth_slices in *.
  rewrite Forall_map in Hall.
  induction (seq 0 (depth label)) as [|d ds IH]; [reflexivity|].
  inversion Hall as [|? ? Hd Hds]; subst.
  cbn [filter]. rewrite Hd. cbn [negb]. rewrite (IH Hds). reflexivity.
Qed.

(** X9: after the removal of the blank slices no depth slice of the label
    is entirely zero, image and label have the same depth, the number of
    labelled depths of the loaded label, and a second removal would keep
    every slice; rectangular volumes of one shape stay rectangular and of one
    shape. *)
Theorem filtered_volumes_aligned `{Backend} (self : CustomDataLoader)
    (label img label' img' : ndarray) :
  filters_blanks self = true ->
  drop_blanks self label img = Ok (label', img') ->
  Forall (fun s => all_zero s = false) (depth_slices label') /\
  depth label' = List.length (labelled_depths label) /\
  depth img' = depth label' /\
  (exists label'' img'',
     drop_blanks self label' img' = Ok (label'', img'') /\
     depth_slices label'' = depth_slices label' /\
     depth_slices img'' = depth_slices img') /\
  (well_shaped img -> well_shaped label -> shape img = shape label ->
   well_shaped img' /\ well_shaped label' /\ shape img' = shape label').
Proof.
  intros Hf Hdrop. unfold drop_blanks in Hdrop. rewrite Hf in Hdrop.
  destruct (index_axis2 label (any_axes_0_1 label)) as [l1|] eqn:Hl;
    [|discriminate].
  cbn [bind] in Hdrop.
  destruct (index_axis2 img (any_axes_0_1 label)) as [i1|] eqn:Hi;
    [|discriminate].
  cbn [bind] in Hdrop. injection Hdrop as <- <-.
  destruct (depth_index_axis2 _ _ _ Hl) as (Hdl & Hsl & Hdatal).
  destruct (depth_index_axis2 _ _ _ Hi) as (Hdi & Hsi & Hdatai).
  rewrite nonzero_any_axes in Hdl, Hdi.
  assert (Hslices : depth_slices l1 =
                    map (slice_at label) (labelled_depths label)).
  { rewrite (depth_slices_index_axis2 _ _ _ Hl), nonzero_any_axes.
    reflexivity. }
  assert (Hnb : Forall (fun s => all_zero s = false) (depth_slices l1)).
  { rewrite Hslices. apply Forall_map, Forall_forall. intros d Hd.
    unfold labelled_depths in Hd. apply filter_In in Hd.
    destruct Hd as [_ Hd]. apply negb_true_iff in Hd. exact Hd. }
  split; [exact Hnb|]. split; [exact Hdl|]. split; [congruence|].
  split.
  - assert (Hdep : depth i1 = depth l1) by congruence.
    destruct (drop_blanks_ok self l1 i1 Hf Hdep)
      as (l2 & i2 & Hdrop2 & Hl2 & Hi2).
    exists l2, i2. split; [exact Hdrop2|].
    rewrite (depth_slices_index_axis2 _ _ _ Hl2).
    rewrite (depth_slices_index_axis2 _ _ _ Hi2).
    rewrite nonzero_any_axes, (labelled_depths_all l1 Hnb).
    unfold depth_slices. rewrite Hdep. split; reflexivity.
  - intros Hwi Hwl Hshape.
    destruct (index_axis2_well_shaped _ _ _ Hwi Hi) as [Hwi1 _].
    destruct (index_axis2_well_shaped _ _ _ Hwl Hl) as [Hwl1 _].
    split; [exact Hwi1|]. split; [exact Hwl1|].
    unfold depth in Hdl, Hdi.
    destruct (shape i1) as [hwi di], (shape l1) as [hwl dl].
    cbn [fst snd] in *. congruence.
Qed.

(** The sample volumes keep three slices each. *)
Lemma filtered_volumes_aligned_witness :
  exists label' img',
    @drop_blanks toy_backend toy_loader toy_label toy_image =
      Ok (label', img') /\
    depth img' = depth label'.
Proof.
  eexists _, _. split; [reflexivity|].
  refine (proj1 (proj2 (proj2
            (@filtered_volumes_aligned toy_backend toy_loader toy_label
               toy_image _ _ eq_refl eq_refl)))).
Defined.

(** What running a chain does to the generators and to the log of warps. *)
Lemma compose_effects `{Backend} (ts : list Transform) : forall x w y w',
  compose ts x w = Ok (y, w') ->
  np_rng w' = np_rng w /\
  affine_calls w' =
    affine_calls w ++ fst (chain_draws ts (py_rng w, torch_rng w)) /\
  (py_rng w', torch_rng w') = snd (chain_draws ts (py_rng w, torch_rng w)).
Proof.
  induction ts as [|t ts IH]; intros x w y w' Hrun.
  - cbn in Hrun. injection Hrun as <- <-. cbn.
    rewrite app_nil_r. repeat split.
  - cbn [compose] in Hrun.
    destruct (apply_transform t x w) as [[x1 w1]|e] eqn:Hstep;
      [|discriminate].
    cbn [bind fst snd] in Hrun. destruct (IH _ _ _ _ Hrun) as (Hnp & Hlog & Hg).
    destruct t as [|degrees scale_ranges fill|f]; cbn [apply_transform] in Hstep.
    + destruct x as [a|]; [|discriminate]. injection Hstep as <- <-.
      cbn [chain_draws]. repeat split; assumption.
    + destruct x as [|img]; [discriminate|].
      cbn [chain_draws].
      destruct (get_params _ _ _) as [p [py th]].
      injection Hstep as <- <-.
      cbn [np_rng py_rng torch_rng affine_calls] in Hnp, Hlog, Hg.
      destruct (chain_draws ts (py, th)) as [ps g2].
      cbn [fst snd] in *. rewrite Hlog, <- app_assoc.
      repeat split; assumption.
    + destruct (f x) as [y1|e]; [|discriminate].
      cbn [bind] in Hstep. injection Hstep as <- <-.
      cbn [chain_draws]. repeat split; assumption.
Qed.

(** X10: the test adapter's [__getitem__] refuses an index outside
    -len .. len - 1 with [IndexError] before any file is read, and an index
    from -len to -1 names the same example as that index plus len. *)
Theorem test_getitem_index_bounds `{Backend} (self : CustomTestLoader)
    (idx : Z) (w : World) :
  (idx < - test_len self \/ test_len self <= idx ->
   test_getitem self idx w = Raise IndexError) /\
  (- test_len self <= idx < 0 ->
   test_getitem self idx w = test_getitem self (idx + test_len self) w).
Proof.
  unfold test_len. split.
  - intros Hidx. unfold test_getitem.
    rewrite py_list_get_out_of_range by exact Hidx. reflexivity.
  - intros Hidx. unfold test_getitem.
    rewrite (py_list_get_negative (test_files self)) by exact Hidx.
    reflexivity.
Qed.

(** Index 1 is out of range for a test adapter over one file; index -1 is
    its only example. *)
Lemma test_getitem_index_bounds_witness :
  @test_getitem toy_backend toy_test_loader 1 toy_world = Raise IndexError /\
  @test_getitem toy_backend toy_test_loader (-1) toy_world =
  @test_getitem toy_backend toy_test_loader 0 toy_world.
Proof.
  split.
  - apply (proj1 (@test_getitem_index_bounds toy_backend toy_test_loader 1
                    toy_world)).
    right. cbn. lia.
  - apply (proj2 (@test_getitem_index_bounds toy_backend toy_test_loader
                    (-1) toy_world)).
    cbn. lia.
Defined.

Lemma optional_effects `{Backend} (ts : option (list Transform)) x w y w' :
  apply_optional ts x w = Ok (y, w') ->
  np_rng w' = np_rng w /\
  affine_calls w' =
    affine_calls w ++ fst (optional_draws ts (py_rng w, torch_rng w)) /\
  (py_rng w', torch_rng w') = snd (optional_draws ts (py_rng w, torch_rng w)).
Proof.
  destruct ts as [chain|]; cbn [apply_optional optional_draws].
  - apply compose_effects.
  - intros [= <- <-]. cbn. rewrite app_nil_r. repeat split.
Qed.

(** X11: for chains made of [ToTensor], [RandomAffine] and [Lambda] steps
    whose functions make no random draw of their own, a successful
    [__getitem__] draws from numpy's generator exactly once, for the seed;
    the warps it logs are those of the image chain followed by those of the
    label chain, each chain drawing from the generators as that one seed
    leaves them; and the generators are left as the label chain leaves
    them. *)
Theorem getitem_draws_one_seed `{Backend} (self : CustomDataLoader)
    (idx : Z) (w : World) (out : Data * Data) (w' : World) :
  getitem self idx w = Ok (out, w') ->
  let seed := fst (np_random_randint (np_rng w) 2147483647) in
  let g := (random_seed seed, torch_manual_seed seed) in
  np_rng w' = snd (np_random_randint (np_rng w) 2147483647) /\
  affine_calls w' =
    affine_calls w ++ fst (optional_draws (transforms self) g) ++
    fst (optional_draws (target_transforms self) g) /\
  (py_rng w', torch_rng w') = snd (optional_draws (target_transforms self) g).
Proof.
  intros Hrun. cbv zeta. unfold getitem in Hrun.
  destruct (py_list_get (files self) idx); [|discriminate].
  destruct (py_list_get (lables self) idx); [|discriminate].
  cbn [bind] in Hrun.
  destruct (nib_load_float32 (root_dir self) _); [|discriminate].
  destruct (nib_load_float32 (seg_dir self) _); [|discriminate].
  cbn [bind] in Hrun.
  destruct (drop_blanks self _ _) as [[label img]|]; [|discriminate].
  cbn [bind fst snd] in Hrun. unfold augment in Hrun.
  destruct (np_random_randint (np_rng w) 2147483647) as [seed np'].
  cbn [fst snd].
  destruct (apply_optional (transforms self) _ _) as [[y1 w1]|] eqn:H1;
    [|discriminate].
  cbn [bind fst snd] in Hrun.
  destruct (apply_optional (target_transforms self) _ _) as [[y2 w2]|] eqn:H2;
    [|discriminate].
  cbn [bind fst snd] in Hrun. injection Hrun as <- <-.
  apply optional_effects in H1. apply optional_effects in H2.
  cbn [reseed np_rng py_rng torch_rng affine_calls] in H1, H2.
  destruct H1 as (Hnp1 & Hlog1 & _). destruct H2 as (Hnp2 & Hlog2 & Hg2).
  split; [congruence|]. split; [|exact Hg2].
  rewrite Hlog2, Hlog1, <- app_assoc. reflexivity.
Qed.

(** The sample adapter with the two chains draws its seed from the numpy
    state 7 and leaves the state 8. *)
Lemma getitem_draws_one_seed_witness :
  exists out w',
    @getitem toy_backend toy_train_loader 0 toy_world = Ok (out, w') /\
    @np_rng toy_backend w' = 8.
Proof.
  eexists _, _. split; [reflexivity|].
  refine (proj1 (@getitem_draws_one_seed toy_backend toy_train_loader 0
                   toy_world _ _ eq_refl)).
Defined.

Lemma chain_draws_ranges `{Backend} (ts1 : list Transform) :
  forall ts2 g,
    affine_ranges ts1 = affine_ranges ts2 ->
    map fst (fst (chain_draws ts1 g)) = map fst (fst (chain_draws ts2 g)) /\
    snd (chain_draws ts1 g) = snd (chain_draws ts2 g).
Proof.
  induction ts1 as [|t1 ts1 IH1]; intros ts2.
  - induction ts2 as [|t2 ts2 IH2]; intros g Hr; [split; reflexivity|].
    destruct t2; cbn [affine_ranges chain_draws] in *;
      [apply IH2; exact Hr|discriminate|apply IH2; exact Hr].
  - destruct t1 as [|d1 s1 f1|f1]; cbn [affine_ranges chain_draws];
      [apply IH1| |apply IH1].
    induction ts2 as [|t2 ts2 IH2]; intros g Hr; [discriminate|].
    destruct t2 as [|d2 s2 f2|f2]; cbn [affine_ranges chain_draws] in *;
      [apply IH2; exact Hr| |apply IH2; exact Hr].
    injection Hr as -> -> Hr.
    destruct (get_params _ _ g) as [p g1].
    destruct (IH1 ts2 g1 Hr) as [Hp Hg].
    destruct (chain_draws ts1 g1) as [ps1 g2], (chain_draws ts2 g1) as [ps2 g3].
    cbn [fst snd map] in *. split; [f_equal; exact Hp|exact Hg].
Qed.

(** X12: for two chains made of [ToTensor], [RandomAffine] and [Lambda]
    steps whose functions make no random draw of their own, and whose
    [RandomAffine] steps have the same ranges in the same order, whatever
    their fill values and the places of their other steps, a successful
    [__getitem__] warps the label with the parameters it warps the image
    with, step by step. *)
Theorem same_ranges_same_parameters `{Backend} (self : CustomDataLoader)
    (image_chain label_chain : list Transform)
    (idx : Z) (w : World) (out : Data * Data) (w' : World) :
  transforms self = Some image_chain ->
  target_transforms self = Some label_chain ->
  affine_ranges image_chain = affine_ranges label_chain ->
  getitem self idx w = Ok (out, w') ->
  exists image_calls label_calls,
    affine_calls w' = affine_calls w ++ image_calls ++ label_calls /\
    map fst image_calls = map fst label_calls /\
    List.length image_calls = List.length (affine_ranges image_chain).
Proof.
  intros Ht Htt Hr Hrun.
  destruct (getitem_draws_one_seed self idx w out w' Hrun) as (_ & Hlog & _).
  rewrite Ht, Htt in Hlog. cbn [optional_draws] in Hlog.
  eexists _, _. split; [exact Hlog|]. split.
  - apply chain_draws_ranges. exact Hr.
  - clear. set (g := (_, _)). generalize g. clear g.
    induction image_chain as [|t ts IH]; intros g; [reflexivity|].
    destruct t; cbn [chain_draws affine_ranges]; [apply IH| |apply IH].
    destruct (get_params _ _ g) as [p g1]. specialize (IH g1).
    destruct (chain_draws ts g1). cbn [fst List.length] in *.
    rewrite IH. reflexivity.
Qed.

(** The two chains of cross_validation.py have one random step each, with
    the same ranges. *)
Lemma same_ranges_same_parameters_witness :
  exists out w' image_calls label_calls,
    @getitem toy_backend toy_train_loader 0 toy_world = Ok (out, w') /\
    @affine_calls toy_backend w' = image_calls ++ label_calls /\
    map fst image_calls = map fst label_calls.
Proof.
  destruct (@same_ranges_same_parameters toy_backend toy_train_loader
              _ _ 0 toy_world _ _ eq_refl eq_refl eq_refl eq_refl)
    as (ic & lc & Hlog & Hp & _).
  eexists _, _, ic, lc. split; [reflexivity|].
  split; [exact Hlog|exact Hp].
Defined.

(** * Further properties of the collate functions *)

Lemma custom_collate_ok {A : Type} (same_shape : A -> A -> bool) batch
    data target :
  custom_collate same_shape batch = Ok (data, target) ->
  stackable same_shape (chain (map fst batch)) = true /\
  stackable same_shape (chain (map snd batch)) = true /\
  data = unsqueeze_1 (chain (map fst batch)) /\
  target = unsqueeze_1 (chain (map snd batch)).
Proof.
  unfold custom_collate. rewrite !torch_stack_stackable.
  destruct (stackable same_shape (chain (map fst batch))); [|discriminate].
  cbn [bind].
  destruct (stackable same_shape (chain (map snd batch))); [|discriminate].
  cbn [bind]. intros [= <- <-]. repeat split.
Qed.

Lemma combine_concat {A B : Type} (batch : list (list A * list B)) :
  Forall (fun v => List.length (fst v) = List.length (snd v)) batch ->
  combine (List.concat (map fst batch)) (List.concat (map snd batch)) =
  List.concat (map (fun v => combine (fst v) (snd v)) batch).
Proof.
  induction 1 as [|[imgs lbls] batch Hv _ IH]; [reflexivity|].
  cbn [map List.concat fst snd] in *.
  rewrite <- IH. clear IH.
  revert lbls Hv. induction imgs as [|i imgs IHi]; intros [|l lbls] Hv;
    try discriminate; [reflexivity|].
  cbn [app combine]. f_equal. apply IHi. cbn in Hv. lia.
Qed.

(** X13: when the image stack and the label stack of every volume of a
    batch have the same depth and [custom_collate] accepts the batch, entry
    number k of the image result and entry number k of the label result are
    the image slice and the label slice of one volume at one depth: the pairs
    of the result are the pairs of the volumes, volume after volume. *)
Theorem collate_keeps_pairs {A : Type} (same_shape : A -> A -> bool)
    (batch : list (list A * list A)) (data target : list (list A)) :
  Forall (fun v => List.length (fst v) = List.length (snd v)) batch ->
  custom_collate same_shape batch = Ok (data, target) ->
  List.length data = List.length target /\
  combine data target =
  map (fun p => ([fst p], [snd p]))
      (List.concat (map (fun v => combine (fst v) (snd v)) batch)).
Proof.
  intros Hdepth Hc.
  destruct (custom_collate_ok _ _ _ _ Hc) as (_ & _ & -> & ->).
  unfold unsqueeze_1, chain.
  assert (Hcomb := combine_concat batch Hdepth).
  split.
  - rewrite !length_map.
    apply (f_equal (@List.length _)) in Hcomb.
    rewrite length_combine in Hcomb.
    assert (Hl : List.length (List.concat (map fst batch)) =
                 List.length (List.concat (map snd batch))).
    { clear Hcomb Hc. induction Hdepth as [|v batch Hv _ IH]; [reflexivity|].
      cbn [map List.concat]. rewrite !length_app, Hv, IH. reflexivity. }
    exact Hl.
  - rewrite <- Hcomb. clear.
    generalize (List.concat (map snd batch)).
    induction (List.concat (map fst batch)) as [|i imgs IH]; intros [|l lbls];
      try reflexivity.
    cbn [map combine fst snd]. rewrite IH. reflexivity.
Qed.

(** Two volumes of depths 2 and 1: three pairs, in volume order. *)
Lemma collate_keeps_pairs_witness :
  exists data target,
    custom_collate (fun _ _ : nat => true)
      [ ([10; 11], [20; 21]); ([12], [22]) ]%nat = Ok (data, target) /\
    combine data target =
      [ ([10], [20]); ([11], [21]); ([12], [22]) ]%nat.
Proof.
  eexists _, _. split; [reflexivity|].
  refine (proj2 (collate_keeps_pairs (fun _ _ : nat => true)
                   [ ([10; 11], [20; 21]); ([12], [22]) ]%nat _ _ _ eq_refl)).
  repeat constructor.
Defined.

Lemma index_rows_ok {A : Type} (t : list A) (d : A) : forall perm,
  Forall (fun i => (i < List.length t)%nat) perm ->
  index_rows t perm = Ok (map (fun i => nth i t d) perm).
Proof.
  induction perm as [|i perm IH]; intros Hall; [reflexivity|].
  inversion Hall as [|? ? Hi Hrest]; subst. cbn [index_rows map].
  destruct (nth_error t i) as [x|] eqn:Hnth.
  - rewrite (IH Hrest). cbn [bind]. rewrite (nth_error_nth _ _ d Hnth).
    reflexivity.
  - apply nth_error_None in Hnth. lia.
Qed.

Lemma index_rows_out_of_range {A : Type} (t : list A) : forall perm,
  Exists (fun i => (List.length t <= i)%nat) perm ->
  index_rows t perm = Raise IndexError.
Proof.
  induction perm as [|i perm IH]; intros Hex; [inversion Hex|].
  cbn [index_rows]. destruct (nth_error t i) as [x|] eqn:Hnth;
    [|reflexivity].
  inversion Hex as [? ? Hi|? ? Hrest]; subst.
  - assert (Hlt : (i < List.length t)%nat).
    { apply nth_error_Some. congruence. }
    lia.
  - rewrite (IH Hrest). reflexivity.
Qed.

Lemma permutation_in_range perm n :
  Permutation perm (seq 0 n) -> Forall (fun i => (i < n)%nat) perm.
Proof.
  intros Hp. apply Forall_forall. intros i Hi.
  apply (Permutation_in i Hp) in Hi. apply in_seq in Hi. lia.
Qed.

(** X14: when [custom_collate] returns image and label results of equal
    length for a batch and [torch.randperm] returns a permutation of the
    positions, [custom_collate_permute] returns both results reordered by
    that one permutation: entry k of each is the entry at position perm[k]
    of the unpermuted result, so every image entry keeps its label entry and
    no entry is lost or doubled. *)
Theorem permute_keeps_pairs {A : Type} (same_shape : A -> A -> bool)
    (randperm : nat -> list nat) (batch : list (list A * list A))
    (data target : list (list A)) :
  custom_collate same_shape batch = Ok (data, target) ->
  List.length data = List.length target ->
  Permutation (randperm (List.length data)) (seq 0 (List.length data)) ->
  let perm := randperm (List.length data) in
  custom_collate_permute same_shape randperm batch =
    Ok (map (fun i => nth i data []) perm,
        map (fun i => nth i target []) perm) /\
  combine (map (fun i => nth i data []) perm)
          (map (fun i => nth i target []) perm) =
    map (fun i => nth i (combine data target) ([], [])) perm /\
  Permutation (combine (map (fun i => nth i data []) perm)
                       (map (fun i => nth i target []) perm))
              (combine data target).
Proof.
  intros Hc Hlen Hperm. cbv zeta.
  destruct (custom_collate_ok _ _ _ _ Hc) as (Hsd & Hst & Hd & Ht).
  set (perm := randperm (List.length data)) in *.
  assert (Hrange := permutation_in_range _ _ Hperm).
  assert (Hcomb : combine (map (fun i => nth i data []) perm)
                          (map (fun i => nth i target []) perm) =
                  map (fun i => nth i (combine data target) ([], [])) perm).
  { clear - Hlen. induction perm as [|i perm IH]; [reflexivity|].
    cbn [map combine]. rewrite IH, combine_nth by exact Hlen. reflexivity. }
  split; [|split; [exact Hcomb|]].
  - unfold custom_collate_permute. rewrite !torch_stack_stackable, Hsd, Hst.
    cbn [bind]. rewrite <- Hd, <- Ht. fold perm.
    rewrite (index_rows_ok data []) by exact Hrange. cbn [bind].
    rewrite (index_rows_ok target [])
      by (rewrite <- Hlen; exact Hrange).
    reflexivity.
  - rewrite Hcomb.
    assert (HlenC : List.length (combine data target) = List.length data).
    { rewrite length_combine. lia. }
    assert (Hid : map (fun i => nth i (combine data target) ([], []))
                      (seq 0 (List.length data)) = combine data target).
    { rewrite <- HlenC.
      rewrite (map_nth_seq (fun p => p) (combine data target) ([], [])).
      apply map_id. }
    eapply perm_trans; [apply Permutation_map; exact Hperm|].
    rewrite Hid. apply Permutation_refl.
Qed.

(** Three pairs reordered by the permutation 2, 0, 1. *)
Lemma permute_keeps_pairs_witness :
  custom_collate_permute (fun _ _ : nat => true) (fun _ => [2; 0; 1]%nat)
    [ ([10; 11], [20; 21]); ([12], [22]) ]%nat =
  Ok ([ [12]; [10]; [11] ]%nat, [ [22]; [20]; [21] ]%nat).
Proof.
  refine (proj1 (permute_keeps_pairs (fun _ _ : nat => true)
                   (fun _ => [2; 0; 1]%nat)
                   [ ([10; 11], [20; 21]); ([12], [22]) ]%nat
                   _ _ eq_refl eq_refl _)).
  cbn. apply Permutation_sym.
  apply (perm_trans (l' := [0; 2; 1]%nat)).
  - apply perm_skip, perm_swap.
  - apply perm_swap.
Defined.

(** X15: for a batch whose image slices and whose label slices are each at
    least one and of one shape, and whose label slices are fewer than its
    image slices, [custom_collate] returns its two results, the label result
    shorter than the image result, whereas [custom_collate_permute] raises
    [IndexError], for every permutation that [torch.randperm] may return. *)
Theorem permute_refuses_short_labels {A : Type} (same_shape : A -> A -> bool)
    (randperm : nat -> list nat) (batch : list (list A * list A)) :
  stackable same_shape (chain (map fst batch)) = true ->
  stackable same_shape (chain (map snd batch)) = true ->
  (total_depth (map snd batch) < total_depth (map fst batch))%nat ->
  Permutation (randperm (total_depth (map fst batch)))
              (seq 0 (total_depth (map fst batch))) ->
  exists data target,
    custom_collate same_shape batch = Ok (data, target) /\
    List.length data = total_depth (map fst batch) /\
    List.length target = total_depth (map snd batch) /\
    custom_collate_permute same_shape randperm batch = Raise IndexError.
Proof.
  intros Hsd Hst Hlen Hperm.
  exists (unsqueeze_1 (chain (map fst batch))),
         (unsqueeze_1 (chain (map snd batch))).
  assert (Hld : List.length (unsqueeze_1 (chain (map fst batch))) =
                total_depth (map fst batch)).
  { rewrite length_unsqueeze_1. apply length_chain. }
  assert (Hlt : List.length (unsqueeze_1 (chain (map snd batch))) =
                total_depth (map snd batch)).
  { rewrite length_unsqueeze_1. apply length_chain. }
  split.
  { unfold custom_collate. rewrite !torch_stack_stackable, Hsd.
    cbn [bind]. rewrite Hst. reflexivity. }
  split; [exact Hld|]. split; [exact Hlt|].
  unfold custom_collate_permute. rewrite !torch_stack_stackable, Hsd, Hst.
  cbn [bind]. rewrite Hld.
  rewrite (index_rows_ok (unsqueeze_1 (chain (map fst batch))) [])
    by (rewrite Hld; apply permutation_in_range; exact Hperm).
  cbn [bind]. rewrite index_rows_out_of_range; [reflexivity|].
  apply Exists_exists. exists (total_depth (map snd batch)).
  split; [|rewrite Hlt; lia].
  apply (Permutation_in _ (Permutation_sym Hperm)). apply in_seq. lia.
Qed.

(** Two image slices with one label slice. *)
Lemma permute_refuses_short_labels_witness :
  custom_collate (fun _ _ : nat => true) [ ([10; 11], [20]) ]%nat =
    Ok ([ [10]; [11] ]%nat, [ [20] ]%nat) /\
  custom_collate_permute (fun _ _ : nat => true) (fun n => seq 0 n)
    [ ([10; 11], [20]) ]%nat = Raise IndexError.
Proof.
  destruct (permute_refuses_short_labels (fun _ _ : nat => true)
              (fun n => seq 0 n) [ ([10; 11], [20]) ]%nat)
    as (data & target & _ & _ & _ & Hp).
  - reflexivity.
  - reflexivity.
  - cbn. lia.
  - apply Permutation_refl.
  - split; [reflexivity|exact Hp].
Defined.

(** X16: on the image stacks of a batch that [custom_collate] accepts,
    [test_collate] returns the image result of [custom_collate]; and
    [test_collate] raises [RuntimeError] exactly when the chained slices are
    none or not of one shape. *)
Theorem test_collate_is_image_half {A : Type} (same_shape : A -> A -> bool) :
  (forall batch data target,
     custom_collate same_shape batch = Ok (data, target) ->
     test_collate same_shape (map fst batch) = Ok data) /\
  (forall batch : list (list A),
     test_collate same_shape batch =
     if stackable same_shape (List.concat batch)
     then Ok (map (fun s => [s]) (List.concat batch))
     else Raise RuntimeError).
Proof.
  split.
  - intros batch data target Hc.
    destruct (custom_collate_ok _ _ _ _ Hc) as (Hsd & _ & -> & _).
    unfold test_collate. rewrite torch_stack_stackable, Hsd. reflexivity.
  - intros batch. unfold test_collate, chain.
    rewrite torch_stack_stackable.
    destruct (stackable same_shape (List.concat batch)); reflexivity.
Qed.

(** The image half of a batch of two volumes. *)
Lemma test_collate_is_image_half_witness :
  test_collate (fun _ _ : nat => true) [ [10; 11]; [12] ]%nat =
  Ok [ [10]; [11]; [12] ]%nat.
Proof.
  apply (proj1 (test_collate_is_image_half (fun _ _ : nat => true))
           [ ([10; 11], [20; 21]); ([12], [22]) ]%nat
           [ [10]; [11]; [12] ]%nat [ [20]; [21]; [22] ]%nat).
  reflexivity.
Defined.

(** * Further properties of the fold split *)

Lemma filter_partition_permutation {A : Type} (f : A -> bool) (l : list A) :
  Permutation (filter (fun x => negb (f x)) l ++ filter f l) l.
Proof.
  induction l as [|x l IH]; [constructor|].
  cbn [filter]. destruct (f x); cbn [negb app].
  - apply Permutation_sym. apply Permutation_cons_app.
    apply Permutation_sym. exact IH.
  - constructor. exact IH.
Qed.

Lemma split_folds_shape {F : Type} (kf : KFold) (files : list F) folds :
  split kf files = Ok folds ->
  forall train dev, In (train, dev) folds ->
    exists section,
      train = filter (fun i => negb (test_mask section i))
                     (seq 0 (List.length files)) /\
      dev = filter (test_mask section) (seq 0 (List.length files)).
Proof.
  unfold split. destruct (_ <? _); [discriminate|].
  intros [= <-] train dev Hin. apply in_map_iff in Hin.
  destruct Hin as (section & [= <- <-] & _). exists section.
  split; reflexivity.
Qed.

(** X17: in every fold that the split yields, the train indices and the
    dev indices are file indices without repetition, no index is in both,
    every file index is in one of them, and together they are as many as the
    files. *)
Theorem train_and_dev_are_complements {F : Type} (kf : KFold)
    (files : list F) (folds : list (list nat * list nat))
    (train dev : list nat) :
  split kf files = Ok folds ->
  In (train, dev) folds ->
  NoDup train /\ NoDup dev /\
  (forall i, In i train -> ~ In i dev) /\
  (forall i, (i < List.length files)%nat <-> In i train \/ In i dev) /\
  Permutation (train ++ dev) (seq 0 (List.length files)) /\
  (List.length train + List.length dev)%nat = List.length files.
Proof.
  intros Hsplit Hin.
  destruct (split_folds_shape kf files folds Hsplit train dev Hin)
    as (section & -> & ->).
  set (n := List.length files).
  assert (Hperm := filter_partition_permutation (test_mask section) (seq 0 n)).
  split; [apply NoDup_filter, seq_NoDup|].
  split; [apply NoDup_filter, seq_NoDup|].
  split.
  { intros i Ht Hd. apply filter_In in Ht, Hd.
    destruct Ht as [_ Ht], Hd as [_ Hd]. rewrite Hd in Ht. discriminate. }
  split.
  { intros i. rewrite <- in_app_iff. split.
    - intros Hi. apply (Permutation_in i (Permutation_sym Hperm)).
      apply in_seq. lia.
    - intros Hi. apply (Permutation_in i Hperm) in Hi.
      apply in_seq in Hi. lia. }
  split; [exact Hperm|].
  apply Permutation_length in Hperm.
  rewrite length_app, length_seq in Hperm. exact Hperm.
Qed.

(** A fold of three files out of eight. *)
Lemma train_and_dev_are_complements_witness :
  (List.length [0; 1; 2; 3; 4]%nat + List.length [5; 6; 7]%nat)%nat =
  List.length [ "a"; "b"; "c"; "d"; "e"; "f"; "g"; "h" ]%string.
Proof.
  refine (proj2 (proj2 (proj2 (proj2 (proj2
            (train_and_dev_are_complements
               {| n_splits := 3; shuffle := @rev nat |}
               [ "a"; "b"; "c"; "d"; "e"; "f"; "g"; "h" ]%string
               _ [0; 1; 2; 3; 4]%nat [5; 6; 7]%nat eq_refl _)))))).
  left. reflexivity.
Defined.

Lemma length_each_split_sizes {A : Type} (sizes : list nat) :
  forall l : list A,
    (list_sum sizes <= List.length l)%nat ->
    map (@List.length A) (split_sizes sizes l) = sizes.
Proof.
  induction sizes as [|s sizes IH]; intros l Hsum; [reflexivity|].
  change (list_sum (s :: sizes)) with (s + list_sum sizes)%nat in Hsum.
  cbn [split_sizes map]. f_equal.
  - rewrite length_firstn. lia.
  - apply IH. rewrite length_skipn. lia.
Qed.

Lemma masked_lengths n (sections : list (list nat)) :
  NoDup (List.concat sections) ->
  incl (List.concat sections) (seq 0 n) ->
  map (fun section =>
         List.length (filter (test_mask section) (seq 0 n))) sections =
  map (@List.length nat) sections.
Proof.
  induction sections as [|section sections IH]; intros Hnd Hincl;
    [reflexivity|].
  cbn [map List.concat] in *. f_equal.
  - apply Permutation_length, masked_indices_permutation.
    + apply NoDup_app_remove_r in Hnd. exact Hnd.
    + intros x Hx. apply Hincl, in_or_app. left. exact Hx.
  - apply IH.
    + apply NoDup_app_remove_l in Hnd. exact Hnd.
    + intros x Hx. apply Hincl, in_or_app. right. exact Hx.
Qed.

(** X18: with at least k files and a shuffle that permutes, the sizes of
    the k dev subsets are, in fold order, those of the sections: the first
    n mod k subsets have n / k + 1 indices and the others n / k, so no two
    dev subsets differ in size by more than one and none is empty. *)
Theorem dev_subsets_balanced {F : Type} (k_folds : Z)
    (permute : list nat -> list nat) (files : list F) :
  2 <= k_folds ->
  k_folds <= Z.of_nat (List.length files) ->
  Permutation (permute (seq 0 (List.length files)))
              (seq 0 (List.length files)) ->
  exists devs,
    dev_subsets k_folds permute files = Ok devs /\
    map (@List.length nat) devs =
      section_sizes (List.length files) (Z.to_nat k_folds) /\
    Forall (fun dev =>
              let q := (List.length files / Z.to_nat k_folds)%nat in
              (1 <= q)%nat /\
              (List.length dev = q \/ List.length dev = S q))
           devs.
Proof.
  intros Hk Hn Hperm.
  set (n := List.length files) in *.
  set (k := Z.to_nat k_folds).
  set (sections := split_sizes (section_sizes n k) (permute (seq 0 n))).
  exists (map (fun section => filter (test_mask section) (seq 0 n)) sections).
  assert (Hsum : list_sum (section_sizes n k) = n).
  { apply list_sum_section_sizes. unfold k. lia. }
  assert (Hlenp : List.length (permute (seq 0 n)) = n).
  { rewrite (Permutation_length Hperm), length_seq. reflexivity. }
  assert (Hcat : List.concat sections = permute (seq 0 n)).
  { unfold sections. rewrite concat_split_sizes, Hsum.
    apply firstn_all2. lia. }
  assert (Hsizes : map (@List.length nat)
                     (map (fun section =>
                             filter (test_mask section) (seq 0 n)) sections) =
                   section_sizes n k).
  { rewrite map_map, masked_lengths.
    - unfold sections. apply length_each_split_sizes. lia.
    - rewrite Hcat. apply (Permutation_NoDup (Permutation_sym Hperm)).
      apply seq_NoDup.
    - rewrite Hcat. intros x Hx. apply (Permutation_in x Hperm Hx). }
  split.
  { unfold dev_subsets, kfold.
    destruct (Z.leb_spec k_folds 1) as [Hle|_]; [lia|]. cbn [bind].
    unfold split. cbn [n_splits shuffle]. fold n.
    destruct (Z.ltb_spec (Z.of_nat n) k_folds) as [Hlt|_]; [lia|].
    cbn [bind]. fold k. fold sections. rewrite map_map. reflexivity. }
  split; [exact Hsizes|].
  rewrite <- (map_id (map _ sections)).
  apply Forall_map. rewrite Forall_forall. intros dev Hdev. cbv zeta.
  fold k. assert (Hin : In (List.length dev) (section_sizes n k)).
  { rewrite <- Hsizes. apply in_map. exact Hdev. }
  unfold section_sizes in Hin. apply in_map_iff in Hin.
  destruct Hin as (j & Hj & _).
  assert (Hq : (1 <= n / k)%nat).
  { apply Nat.div_le_lower_bound; unfold k; lia. }
  split; [exact Hq|].
  unfold id. destruct (j <? n mod k)%nat; lia.
Qed.

(** Eight files in three folds: dev subsets of 3, 3 and 2 indices. *)
Lemma dev_subsets_balanced_witness :
  exists devs,
    dev_subsets 3 (@rev nat)
      [ "a"; "b"; "c"; "d"; "e"; "f"; "g"; "h" ]%string = Ok devs /\
    map (@List.length nat) devs = [3; 3; 2]%nat.
Proof.
  destruct (dev_subsets_balanced 3 (@rev nat)
              [ "a"; "b"; "c"; "d"; "e"; "f"; "g"; "h" ]%string)
    as (devs & Hd & Hs & _).
  - lia.
  - cbn. lia.
  - apply Permutation_sym, Permutation_rev.
  - exists devs. split; [exact Hd|exact Hs].
Defined.

(** * The file lists of a fold *)

Lemma pick_ok {A : Type} (l : list A) (d : A) : forall ids,
  Forall (fun i => (i < List.length l)%nat) ids ->
  pick l ids = Ok (map (fun i => nth i l d) ids).
Proof.
  induction ids as [|i ids IH]; intros Hall; [reflexivity|].
  inversion Hall as [|? ? Hi Hrest]; subst. cbn [pick map].
  rewrite (py_list_get_in_range l (Z.of_nat i) d) by lia.
  cbn [bind]. rewrite (IH Hrest). cbn [bind].
  rewrite Nat2Z.id. reflexivity.
Qed.

Lemma pick_out_of_range {A : Type} (l : list A) : forall ids,
  Exists (fun i => (List.length l <= i)%nat) ids ->
  pick l ids = Raise IndexError.
Proof.
  induction ids as [|i ids IH]; intros Hex; [inversion Hex|].
  cbn [pick].
  destruct (Nat.lt_ge_cases i (List.length l)) as [Hlt|Hge].
  - destruct l as [|d l']; [cbn in Hlt; lia|].
    rewrite (py_list_get_in_range (d :: l') (Z.of_nat i) d) by lia.
    cbn [bind]. inversion Hex as [? ? Hi|? ? Hrest]; subst; [lia|].
    rewrite (IH Hrest). reflexivity.
  - rewrite py_list_get_out_of_range by lia. reflexivity.
Qed.

Lemma combine_map_nth {A B : Type} (la : list A) (lb : list B) da db :
  List.length la = List.length lb ->
  forall ids,
    combine (map (fun i => nth i la da) ids) (map (fun i => nth i lb db) ids) =
    map (fun i => nth i (combine la lb) (da, db)) ids.
Proof.
  intros Hlen. induction ids as [|i ids IH]; [reflexivity|].
  cbn [map combine]. rewrite IH, combine_nth by exact Hlen. reflexivity.
Qed.

Lemma fold_ids_in_range {F : Type} (kf : KFold) (files : list F) folds
    train dev :
  split kf files = Ok folds ->
  In (train, dev) folds ->
  Forall (fun i => (i < List.length files)%nat) train /\
  Forall (fun i => (i < List.length files)%nat) dev.
Proof.
  intros Hsplit Hin.
  destruct (split_folds_shape kf files folds Hsplit train dev Hin)
    as (section & -> & ->).
  split; apply Forall_forall; intros i Hi; apply filter_In in Hi;
    destruct Hi as [Hi _]; apply in_seq in Hi; lia.
Qed.

Lemma fold_sizes_add_up {F : Type} (kf : KFold)
    (files : list F) folds train dev :
  split kf files = Ok folds ->
  In (train, dev) folds ->
  (List.length train + List.length dev)%nat = List.length files.
Proof.
  intros Hsplit Hin.
  destruct (split_folds_shape kf files folds Hsplit train dev Hin)
    as (section & -> & ->).
  pose proof (filter_partition_permutation (test_mask section)
                (seq 0 (List.length files))) as Hperm.
  apply Permutation_length in Hperm.
  rewrite length_app, length_seq in Hperm. exact Hperm.
Qed.

(** X19: with as many label names as file names, the four lists of every
    fold of the split are built without error, and each selected file name
    stands beside the label name of the same position of the sorted lists:
    the pairs (file, label) of the train lists and of the dev lists are the
    pairs of the two sorted lists at the train and at the dev indices. *)
Theorem fold_files_keep_pairs (kf : KFold) (files labels : list string)
    (folds : list (list nat * list nat)) (train_ids dev_ids : list nat) :
  List.length labels = List.length files ->
  split kf files = Ok folds ->
  In (train_ids, dev_ids) folds ->
  exists r,
    fold_files files labels train_ids dev_ids = Ok r /\
    combine (files_train r) (labels_train r) =
      map (fun i => nth i (combine files labels) (EmptyString, EmptyString))
          train_ids /\
    combine (files_dev r) (labels_dev r) =
      map (fun i => nth i (combine files labels) (EmptyString, EmptyString))
          dev_ids /\
    (List.length (files_train r) + List.length (files_dev r))%nat =
      List.length files.
Proof.
  intros Hlen Hsplit Hin.
  destruct (fold_ids_in_range kf files folds _ _ Hsplit Hin) as [Ht Hd].
  pose proof (fold_sizes_add_up kf files folds _ _ Hsplit Hin) as Hsum.
  eexists. split.
  { unfold fold_files.
    rewrite (pick_ok files EmptyString train_ids Ht). cbn [bind].
    rewrite (pick_ok labels EmptyString train_ids)
      by (rewrite Hlen; exact Ht).
    cbn [bind].
    rewrite (pick_ok files EmptyString dev_ids Hd). cbn [bind].
    rewrite (pick_ok labels EmptyString dev_ids)
      by (rewrite Hlen; exact Hd).
    cbn [bind]. reflexivity. }
  cbn [files_train labels_train files_dev labels_dev].
  split; [apply combine_map_nth; symmetry; exact Hlen|].
  split; [apply combine_map_nth; symmetry; exact Hlen|].
  rewrite !length_map. exact Hsum.
Qed.

(** The first fold of eight files with their eight labels. *)
Lemma fold_files_keep_pairs_witness :
  exists r,
    fold_files [ "a"; "b"; "c"; "d"; "e"; "f"; "g"; "h" ]%string
               [ "A"; "B"; "C"; "D"; "E"; "F"; "G"; "H" ]%string
               [0; 1; 2; 3; 4]%nat [5; 6; 7]%nat = Ok r /\
    combine (files_dev r) (labels_dev r) =
      [ ("f", "F"); ("g", "G"); ("h", "H") ]%string.
Proof.
  destruct (fold_files_keep_pairs
              {| n_splits := 3; shuffle := @rev nat |}
              [ "a"; "b"; "c"; "d"; "e"; "f"; "g"; "h" ]%string
              [ "A"; "B"; "C"; "D"; "E"; "F"; "G"; "H" ]%string
              _ [0; 1; 2; 3; 4]%nat [5; 6; 7]%nat eq_refl eq_refl
              (or_introl eq_refl))
    as (r & Hr & _ & Hdev & _).
  exists r. split; [exact Hr|exact Hdev].
Defined.

(** X20: with fewer label names than file names, building the four lists
    raises [IndexError] in every fold of the split: the index of the first
    file without a label is among the train or the dev indices of each
    fold. *)
Theorem fold_files_missing_labels (kf : KFold) (files labels : list string)
    (folds : list (list nat * list nat)) (train_ids dev_ids : list nat) :
  (List.length labels < List.length files)%nat ->
  split kf files = Ok folds ->
  In (train_ids, dev_ids) folds ->
  fold_files files labels train_ids dev_ids = Raise IndexError.
Proof.
  intros Hlen Hsplit Hin.
  destruct (fold_ids_in_range kf files folds _ _ Hsplit Hin) as [Ht Hd].
  destruct (split_folds_shape kf files folds Hsplit _ _ Hin)
    as (section & Htrain & Hdev).
  unfold fold_files.
  rewrite (pick_ok files EmptyString train_ids Ht). cbn [bind].
  destruct (Exists_dec (fun i => (List.length labels <= i)%nat) train_ids)
    as [Hex|Hnone].
  { intros i. destruct (le_dec (List.length labels) i); [left|right];
      assumption. }
  - rewrite (pick_out_of_range labels train_ids Hex). reflexivity.
  - assert (Hall : Forall (fun i => (i < List.length labels)%nat) train_ids).
    { apply Forall_forall. intros i Hi.
      destruct (Nat.lt_ge_cases i (List.length labels)) as [Hlt|Hge];
        [exact Hlt|].
      exfalso. apply Hnone. apply Exists_exists. exists i.
      split; assumption. }
    rewrite (pick_ok labels EmptyString train_ids Hall). cbn [bind].
    rewrite (pick_ok files EmptyString dev_ids Hd). cbn [bind].
    rewrite pick_out_of_range; [reflexivity|].
    apply Exists_exists. exists (List.length labels). split; [|lia].
    rewrite Hdev. apply filter_In. split; [apply in_seq; lia|].
    destruct (test_mask section (List.length labels)) eqn:Hmask;
      [reflexivity|].
    exfalso.
    assert (Hintrain : In (List.length labels) train_ids).
    { rewrite Htrain. apply filter_In. split; [apply in_seq; lia|].
      rewrite Hmask. reflexivity. }
    rewrite Forall_forall in Hall. specialize (Hall _ Hintrain). lia.
Qed.

(** Eight files with seven labels. *)
Lemma fold_files_missing_labels_witness :
  fold_files [ "a"; "b"; "c"; "d"; "e"; "f"; "g"; "h" ]%string
             [ "A"; "B"; "C"; "D"; "E"; "F"; "G" ]%string
             [0; 1; 2; 3; 4]%nat [5; 6; 7]%nat = Raise IndexError.
Proof.
  refine (fold_files_missing_labels
            {| n_splits := 3; shuffle := @rev nat |}
            [ "a"; "b"; "c"; "d"; "e"; "f"; "g"; "h" ]%string
            [ "A"; "B"; "C"; "D"; "E"; "F"; "G" ]%string
            _ [0; 1; 2; 3; 4]%nat [5; 6; 7]%nat _ eq_refl
            (or_introl eq_refl)).
  cbn. lia.
Defined.

(** * Further properties of the report lines and of the validation loop *)

Lemma scan_format_text (p : string) : forall s nargs used,
  brace_free p = true ->
  scan_format (String.append p s) InText nargs used =
  scan_format s InText nargs used.
Proof.
  induction p as [|c p IH]; intros s nargs used Hp; [reflexivity|].
  cbn [brace_free] in Hp. apply andb_true_iff in Hp.
  destruct Hp as [Hc Hp]. apply andb_true_iff in Hc.
  destruct Hc as [Ho Hcl]. apply negb_true_iff in Ho, Hcl.
  cbn [String.append scan_format]. rewrite Ho, Hcl. apply IH. exact Hp.
Qed.

Lemma scan_format_single_close (c : string) nargs used :
  brace_free c = true ->
  scan_format c AfterClose nargs used = Some (Raise ValueError).
Proof.
  destruct c as [|x c]; [reflexivity|].
  cbn [brace_free]. intros Hc. apply andb_true_iff in Hc.
  destruct Hc as [Hx _]. apply andb_true_iff in Hx.
  destruct Hx as [_ Hcl]. apply negb_true_iff in Hcl.
  cbn [scan_format]. rewrite Hcl. reflexivity.
Qed.

(** X21: a template made of texts without braces around two empty fields,
    the second of which is followed by one more closing brace, is refused:
    with [IndexError] when fewer than two arguments are given, and with
    [ValueError] when two or more are.  The template of the final summary
    (line 290) is of that form and is given two arguments, so the statement
    raises [ValueError] and the mean and the standard deviation over the
    folds are never printed.  The templates of the two per-epoch lines and
    of the per-fold line format without error with the arguments they are
    given. *)
Theorem final_summary_is_never_printed :
  (forall a b c nargs,
     brace_free a = true -> brace_free b = true -> brace_free c = true ->
     format_raises
       (String.append a
          (String.append "{}"
             (String.append b (String.append "{}}" c)))) nargs =
     Some (Raise (if (2 <=? nargs)%nat then ValueError else IndexError))) /\
  (forall nargs,
     format_raises summary_template nargs =
     Some (Raise (if (2 <=? nargs)%nat then ValueError else IndexError))) /\
  format_raises summary_template 2 = Some (Raise ValueError) /\
  format_raises train_template 6 = Some (Ok tt) /\
  format_raises valid_template 8 = Some (Ok tt) /\
  format_raises fold_template 2 = Some (Ok tt).
Proof.
  assert (Hgen : forall a b c nargs,
             brace_free a = true -> brace_free b = true ->
             brace_free c = true ->
             format_raises
               (String.append a
                  (String.append "{}"
                     (String.append b (String.append "{}}" c)))) nargs =
             Some (Raise (if (2 <=? nargs)%nat
                          then ValueError else IndexError))).
  { intros a b c nargs Ha Hb Hc. unfold format_raises.
    rewrite scan_format_text by exact Ha.
    cbn [String.append scan_format Ascii.eqb Bool.eqb].
    destruct nargs as [|[|nargs]]; [reflexivity| |].
    - cbn [Nat.ltb Nat.leb]. rewrite scan_format_text by exact Hb.
      reflexivity.
    - cbn [Nat.ltb Nat.leb]. rewrite scan_format_text by exact Hb.
      cbn [String.append scan_format Ascii.eqb Bool.eqb Nat.ltb Nat.leb].
      rewrite scan_format_single_close by exact Hc. reflexivity. }
  split; [exact Hgen|]. split; [|repeat split].
  intros nargs.
  apply (Hgen "########### Average 3D IoU over folds: "%string "+-"%string
              "###########"%string);
    reflexivity.
Qed.

(** The template of line 290 with the two arguments it is given. *)
Lemma final_summary_is_never_printed_witness :
  format_raises
    "########### Average 3D IoU over folds: {}+-{}}###########"%string 2 =
  Some (Raise ValueError).
Proof.
  apply (proj1 final_summary_is_never_printed
           "########### Average 3D IoU over folds: "%string "+-"%string
           "###########"%string 2%nat);
    reflexivity.
Defined.

(** X22: the per-slice inference of the validation loop raises
    [RuntimeError] on a volume without slices; on any other volume it
    returns one output per slice when the outputs have one shape and raises
    [RuntimeError] when they have not. *)
Theorem predict_volume_errors {A O : Type} (same_shape : O -> O -> bool)
    (model : list A -> O) :
  predict_volume same_shape model [] = Raise RuntimeError /\
  (forall image,
     image <> [] ->
     predict_volume same_shape model image =
     if stackable same_shape (map (fun s => model [s]) image)
     then Ok (map (fun s => model [s]) image)
     else Raise RuntimeError) /\
  (forall image out,
     predict_volume same_shape model image = Ok out ->
     List.length out = List.length image).
Proof.
  assert (Hne : forall image,
             image <> [] ->
             predict_volume same_shape model image =
             if stackable same_shape (map (fun s => model [s]) image)
             then Ok (map (fun s => model [s]) image)
             else Raise RuntimeError).
  { intros image Himg. unfold predict_volume.
    rewrite tensor_split_all by exact Himg. cbn [bind].
    rewrite fold_left_append. cbn [app]. rewrite map_map.
    apply torch_stack_stackable. }
  split; [reflexivity|]. split; [exact Hne|].
  intros image out Hout. destruct image as [|x image]; [discriminate|].
  rewrite Hne in Hout by discriminate.
  destruct (stackable _ _); [|discriminate].
  injection Hout as <-.
  apply (length_map (fun s => model [s]) (x :: image)).
Qed.

(** Two slices whose outputs differ in shape are refused. *)
Lemma predict_volume_errors_witness :
  predict_volume Nat.eqb (fun section : list nat => hd 0%nat section)
    [1; 2]%nat = Raise RuntimeError.
Proof.
  apply (proj1 (proj2 (predict_volume_errors Nat.eqb
                         (fun section : list nat => hd 0%nat section)))
           [1; 2]%nat).
  discriminate.
Defined.
